(** * Network-Speed-Test: the discovery and transfer protocol engine

    A shallow embedding of [server.py] and [client.py].

    - Python integers are [Z]; the fixed-width fields of [struct] are [Z]
      with their range written out.
    - [bytes] objects are [list byte]; a decoded [str] is a list of Unicode
      code points ([list Z]).
    - A Python exception is a value of [exn] carried by [py_result].
    - A socket is seen from the handler that owns it: what the handler
      writes is a trace, and what the socket delivers is a list of events
      read in order.  A write itself does not fail.
    - A datagram in an event is the [data] that [recvfrom(2048)] returned.
    - A reading of [time.time()] is a number of milliseconds. *)

From Stdlib.Strings Require Import Byte String.
From Stdlib Require Import ZArith List Bool Lia QArith.
From Equations Require Import Equations.
Import ListNotations.
Local Open Scope Z_scope.

(** ** Exceptions *)

Inductive exn : Type :=
| StructError
| UnicodeDecodeError
| ValueError
| ZeroDivisionError.

Inductive py_result (A : Type) : Type :=
| Ok (a : A)
| Raise (e : exn).
Arguments Ok {A} a.
Arguments Raise {A} e.

Definition bind {A B : Type} (m : py_result A) (k : A -> py_result B) : py_result B :=
  match m with
  | Ok a => k a
  | Raise e => Raise e
  end.

Notation "x <- m ;; k" := (bind m (fun x => k))
  (at level 61, m at next level, right associativity).
Notation "' p <- m ;; k" := (bind m (fun x => match x with p => k end))
  (at level 61, p pattern, m at next level, right associativity).

(** ** Constants of both modules *)

Definition MAGIC_COOKIE : Z := 0xabcddcba.
Definition OFFER_TYPE : Z := 0x2.
Definition REQUEST_TYPE : Z := 0x3.
Definition PAYLOAD_TYPE : Z := 0x4.

(** ** Bytes and big-endian fields *)

Definition byte_val (b : byte) : Z := Z.of_N (Byte.to_N b).

Definition byte_of (v : Z) : byte :=
  match Byte.of_N (Z.to_N (v mod 256)) with
  | Some b => b
  | None => x00
  end.

(** [be_bytes n v]: the [n] low-order bytes of [v], most significant first. *)
Fixpoint be_bytes (n : nat) (v : Z) : list byte :=
  match n with
  | O => []
  | S k => be_bytes k (v / 256) ++ [byte_of v]
  end.

Definition be_value (l : list byte) : Z :=
  fold_left (fun acc b => acc * 256 + byte_val b) l 0.

(** One unsigned field of a [struct] format: [B] is 1 byte, [H] 2, [I] 4,
    [Q] 8.  Packing a value out of range raises [struct.error]. *)
Definition pack_field (n : nat) (v : Z) : py_result (list byte) :=
  if (0 <=? v) && (v <? 256 ^ Z.of_nat n) then Ok (be_bytes n v)
  else Raise StructError.

Definition slice (from len : nat) (data : list byte) : list byte :=
  firstn len (skipn from data).

(** [struct.pack('!IBHH', a, b, c, d)] *)
Definition pack_IBHH (a b c d : Z) : py_result (list byte) :=
  fa <- pack_field 4 a ;;
  fb <- pack_field 1 b ;;
  fc <- pack_field 2 c ;;
  fd <- pack_field 2 d ;;
  Ok (fa ++ fb ++ fc ++ fd).

(** [struct.unpack('!IBHH', data)]: the buffer must be exactly 9 bytes. *)
Definition unpack_IBHH (data : list byte) : py_result (Z * Z * Z * Z) :=
  if (length data =? 9)%nat then
    Ok (be_value (slice 0 4 data), be_value (slice 4 1 data),
        be_value (slice 5 2 data), be_value (slice 7 2 data))
  else Raise StructError.

(** [struct.pack('!IBQ', a, b, c)] *)
Definition pack_IBQ (a b c : Z) : py_result (list byte) :=
  fa <- pack_field 4 a ;;
  fb <- pack_field 1 b ;;
  fc <- pack_field 8 c ;;
  Ok (fa ++ fb ++ fc).

(** [struct.unpack('!IBQ', data)]: the buffer must be exactly 13 bytes. *)
Definition unpack_IBQ (data : list byte) : py_result (Z * Z * Z) :=
  if (length data =? 13)%nat then
    Ok (be_value (slice 0 4 data), be_value (slice 4 1 data),
        be_value (slice 5 8 data))
  else Raise StructError.

(** [struct.pack('!IBQQ', a, b, c, d)] *)
Definition pack_IBQQ (a b c d : Z) : py_result (list byte) :=
  fa <- pack_field 4 a ;;
  fb <- pack_field 1 b ;;
  fc <- pack_field 8 c ;;
  fd <- pack_field 8 d ;;
  Ok (fa ++ fb ++ fc ++ fd).

(** [struct.unpack('!IBQQ', data)]: the buffer must be exactly 21 bytes. *)
Definition unpack_IBQQ (data : list byte) : py_result (Z * Z * Z * Z) :=
  if (length data =? 21)%nat then
    Ok (be_value (slice 0 4 data), be_value (slice 4 1 data),
        be_value (slice 5 8 data), be_value (slice 13 8 data))
  else Raise StructError.

(** ** Sockets

    A handler's effect on the outside is what it writes; [io W A] threads
    the list of writes made so far and may end in an exception. *)

Section IO.
Context {W : Type}.

Definition io (A : Type) : Type := list W -> py_result A * list W.

Definition io_ret {A : Type} (a : A) : io A := fun w => (Ok a, w).

Definition io_bind {A B : Type} (m : io A) (k : A -> io B) : io B :=
  fun w =>
    match m w with
    | (Ok a, w') => k a w'
    | (Raise e, w') => (Raise e, w')
    end.

Definition write (x : W) : io unit := fun w => (Ok tt, w ++ [x]).

Definition lift {A : Type} (r : py_result A) : io A := fun w => (r, w).

(** [try: body except Exception: handler] *)
Definition try_except {A : Type} (body : io A) (handler : exn -> io A) : io A :=
  fun w =>
    match body w with
    | (Ok a, w') => (Ok a, w')
    | (Raise e, w') => handler e w'
    end.

(** [try: body finally: cleanup] *)
Definition try_finally {A : Type} (body : io A) (cleanup : io unit) : io A :=
  fun w =>
    match body w with
    | (r, w') =>
        match cleanup w' with
        | (Ok _, w'') => (r, w'')
        | (Raise e, w'') => (Raise e, w'')
        end
    end.

(** [for x in xs: body x] *)
Fixpoint for_each {X : Type} (xs : list X) (body : X -> io unit) : io unit :=
  match xs with
  | [] => io_ret tt
  | x :: rest => io_bind (body x) (fun _ => for_each rest body)
  end.

(** The run of a handler on a fresh socket. *)
Definition run {A : Type} (m : io A) : py_result A * list W := m [].
End IO.
Arguments io : clear implicits.

Notation "x <~ m ;; k" := (io_bind m (fun x => k))
  (at level 61, m at next level, right associativity).
Notation "' p <~ m ;; k" := (io_bind m (fun x => match x with p => k end))
  (at level 61, p pattern, m at next level, right associativity).

(** [range(n)] *)
Definition range (n : Z) : list Z := map Z.of_nat (seq 0 (Z.to_nat n)).

Definition datagram : Type := list byte.

(** A peer address [(host, port)]. *)
Definition address : Type := (string * Z)%type.

(** ** server.py: the UDP transfer server *)

Definition chunk_size : Z := 1024.

Definition sendto (msg : datagram) (addr : address) : io (datagram * address) unit :=
  write (msg, addr).

(** [c * n] for a one-byte [c]; a count below 1 gives the empty bytes
    object.  [x64] is [b'd'] and [x61] is [b'a']. *)
Definition filler (c : byte) (n : Z) : list byte := repeat c (Z.to_nat n).

Definition handle_udp_connection (data : datagram) (client_address : address)
  : io (datagram * address) bool :=
  try_except
    (if negb (length data =? 13)%nat then io_ret false
     else
       '(magic_cookie, message_type, file_size) <~ lift (unpack_IBQ data) ;;
       if negb (magic_cookie =? MAGIC_COOKIE) || negb (message_type =? REQUEST_TYPE)
       then io_ret false
       else
         let chunks := (file_size + chunk_size - 1) / chunk_size in
         _ <~ for_each (range chunks) (fun chunk_number =>
                payload_header <~
                  lift (pack_IBQQ MAGIC_COOKIE PAYLOAD_TYPE chunks chunk_number) ;;
                let remaining_bytes := file_size - chunk_number * chunk_size in
                let payload_message := filler x64 (Z.min chunk_size remaining_bytes) in
                sendto (payload_header ++ payload_message) client_address) ;;
         io_ret true)
    (fun _ => io_ret false).

(** [offer_message] of [udp_offer_sender]. *)
Definition offer_message (SERVER_UDP_PORT SERVER_TCP_PORT : Z) : py_result datagram :=
  pack_IBHH MAGIC_COOKIE OFFER_TYPE SERVER_UDP_PORT SERVER_TCP_PORT.

(** ** client.py: the discovery listener

    What [recvfrom] does on each call: it returns a datagram with its
    sender, or raises [socket.timeout]. *)

Inductive udp_event : Type :=
| Datagram (data : datagram) (sender : address)
| SocketTimeout.

(** The listener either returns [(server_ip, tcp_port, udp_port)], leaving
    the rest of the traffic unread, or is still inside [while True]. *)
Inductive listener_result : Type :=
| Returned (server_ip : string) (server_tcp_port server_udp_port : Z)
           (unread : list udp_event)
| Listening.

Fixpoint listen_for_offers (incoming : list udp_event) : listener_result :=
  match incoming with
  | [] => Listening
  | SocketTimeout :: rest => listen_for_offers rest
  | Datagram data server_address :: rest =>
      match unpack_IBHH data with
      | Ok (magic_cookie, message_type, server_udp_port, server_tcp_port) =>
          if (magic_cookie =? MAGIC_COOKIE) && (message_type =? OFFER_TYPE)
          then Returned (fst server_address) server_tcp_port server_udp_port rest
          else listen_for_offers rest
      | Raise _ => listen_for_offers rest
      end
  end.

(** ** client.py: the UDP transfer client

    [time.time()] is read once per iteration; a reading is a number of
    milliseconds, so that one second is 1000. *)

Inductive recv_event : Type :=
| Received (now : Z) (data : datagram)
| TimedOut (now : Z).

Record transfer : Type := {
  received_segments : Z;
  total_segment_count : Z;
  last_received_time : Z
}.

Inductive loop_exit : Type :=
| Completed
| IdleTimeout.

Inductive control : Type :=
| Continue
| Break (why : loop_exit)
| Propagate (e : exn).

(** One iteration of the [while True] of [initiate_udp_test]. *)
Definition loop_body (ev : recv_event) (st : transfer) : transfer * control :=
  match ev with
  | Received now data =>
      let st := {| received_segments := received_segments st;
                   total_segment_count := total_segment_count st;
                   last_received_time := now |} in
      let st := {| received_segments := received_segments st + 1;
                   total_segment_count := total_segment_count st;
                   last_received_time := last_received_time st |} in
      if (length data <? 21)%nat then (st, Continue)
      else
        match unpack_IBQQ (firstn 21 data) with
        | Raise e => (st, Propagate e)
        | Ok (magic_cookie, message_type, total, _) =>
            let st := {| received_segments := received_segments st;
                         total_segment_count := total;
                         last_received_time := last_received_time st |} in
            if negb (magic_cookie =? MAGIC_COOKIE) || negb (message_type =? PAYLOAD_TYPE)
            then (st, Continue)
            else if received_segments st =? total_segment_count st
                 then (st, Break Completed)
                 else (st, Continue)
        end
  | TimedOut now =>
      if now - last_received_time st >? 1000 then (st, Break IdleTimeout)
      else (st, Continue)
  end.

Inductive loop_result : Type :=
| Exited (why : loop_exit) (st : transfer)
| Raised (e : exn) (st : transfer)
| Receiving (st : transfer).

Fixpoint receive_loop (incoming : list recv_event) (st : transfer) : loop_result :=
  match incoming with
  | [] => Receiving st
  | ev :: rest =>
      match loop_body ev st with
      | (st', Continue) => receive_loop rest st'
      | (st', Break why) => Exited why st'
      | (st', Propagate e) => Raised e st'
      end
  end.

(** The counters as they are set before the loop, [start] being the
    reading of the clock there. *)
Definition initial_transfer (start : Z) : transfer :=
  {| received_segments := 0; total_segment_count := 0; last_received_time := start |}.

(** [success_rate] after the loop.  Python computes the quotient in
    floating point; here it is the exact rational.  [total_segment_count]
    is never negative, being 0 or an unpacked [Q] field. *)
Definition success_rate (st : transfer) : Q :=
  if total_segment_count st =? 0 then 0%Q
  else ((received_segments st # Z.to_pos (total_segment_count st)) * 100)%Q.

(** ** Python text

    [bytes.decode()] is strict UTF-8.  [str.strip], [str.isdigit] and [int]
    consult the interpreter's Unicode character database: on ASCII its
    content is written out below; beyond ASCII it is a parameter. *)

Record unicode_db : Type := {
  nonascii_isspace : Z -> bool;
  nonascii_isdigit : Z -> bool;
  nonascii_decimal : Z -> option Z
}.

Definition is_continuation (v : Z) : bool := (0x80 <=? v) && (v <=? 0xBF).

Definition in_range (lo hi v : Z) : bool := (lo <=? v) && (v <=? hi).

Definition low6 (v : Z) : Z := Z.land v 0x3F.

Fixpoint utf8_decode (bs : list byte) : py_result (list Z) :=
  match bs with
  | [] => Ok []
  | b0 :: r0 =>
      let v0 := byte_val b0 in
      if v0 <? 0x80 then
        rest <- utf8_decode r0 ;; Ok (v0 :: rest)
      else if in_range 0xC2 0xDF v0 then
        match r0 with
        | b1 :: r1 =>
            let v1 := byte_val b1 in
            if is_continuation v1 then
              rest <- utf8_decode r1 ;;
              Ok (Z.lor (Z.shiftl (Z.land v0 0x1F) 6) (low6 v1) :: rest)
            else Raise UnicodeDecodeError
        | _ => Raise UnicodeDecodeError
        end
      else if in_range 0xE0 0xEF v0 then
        match r0 with
        | b1 :: b2 :: r2 =>
            let v1 := byte_val b1 in
            let v2 := byte_val b2 in
            if in_range (if v0 =? 0xE0 then 0xA0 else 0x80)
                        (if v0 =? 0xED then 0x9F else 0xBF) v1
               && is_continuation v2 then
              rest <- utf8_decode r2 ;;
              Ok (Z.lor (Z.shiftl (Z.land v0 0x0F) 12)
                        (Z.lor (Z.shiftl (low6 v1) 6) (low6 v2)) :: rest)
            else Raise UnicodeDecodeError
        | _ => Raise UnicodeDecodeError
        end
      else if in_range 0xF0 0xF4 v0 then
        match r0 with
        | b1 :: b2 :: b3 :: r3 =>
            let v1 := byte_val b1 in
            let v2 := byte_val b2 in
            let v3 := byte_val b3 in
            if in_range (if v0 =? 0xF0 then 0x90 else 0x80)
                        (if v0 =? 0xF4 then 0x8F else 0xBF) v1
               && is_continuation v2 && is_continuation v3 then
              rest <- utf8_decode r3 ;;
              Ok (Z.lor (Z.shiftl (Z.land v0 0x07) 18)
                        (Z.lor (Z.shiftl (low6 v1) 12)
                               (Z.lor (Z.shiftl (low6 v2) 6) (low6 v3))) :: rest)
            else Raise UnicodeDecodeError
        | _ => Raise UnicodeDecodeError
        end
      else Raise UnicodeDecodeError
  end.

Definition ascii_isspace (c : Z) : bool := in_range 9 13 c || in_range 28 32 c.

Definition ascii_isdigit (c : Z) : bool := in_range 48 57 c.

Section Text.
Variable ucd : unicode_db.

Definition isspace (c : Z) : bool :=
  if c <? 128 then ascii_isspace c else nonascii_isspace ucd c.

Definition isdigit_char (c : Z) : bool :=
  if c <? 128 then ascii_isdigit c else nonascii_isdigit ucd c.

Definition decimal_value (c : Z) : option Z :=
  if c <? 128 then (if ascii_isdigit c then Some (c - 48) else None)
  else nonascii_decimal ucd c.

Fixpoint lstrip (s : list Z) : list Z :=
  match s with
  | [] => []
  | c :: r => if isspace c then lstrip r else s
  end.

(** [s.strip()] *)
Definition strip (s : list Z) : list Z := rev (lstrip (rev (lstrip s))).

(** [s.isdigit()]: false on the empty string. *)
Definition isdigit (s : list Z) : bool :=
  match s with
  | [] => false
  | _ => forallb isdigit_char s
  end.

(** [int(s)] for an [s] that passed [isdigit]: every character must
    have a decimal value, or [ValueError] is raised. *)
Fixpoint int_from (acc : Z) (s : list Z) : py_result Z :=
  match s with
  | [] => Ok acc
  | c :: r =>
      match decimal_value c with
      | Some d => int_from (acc * 10 + d) r
      | None => Raise ValueError
      end
  end.

Definition int (s : list Z) : py_result Z := int_from 0 s.
End Text.

(** ** server.py: the TCP transfer server *)

Inductive tcp_action : Type :=
| Sendall (chunk : list byte)
| Close.

Definition sendall (chunk : list byte) : io tcp_action unit := write (Sendall chunk).

Definition close : io tcp_action unit := write Close.

(** The [while total_bytes_sent < file_size_bytes] loop. *)
Equations? send_loop (file_size_bytes total_bytes_sent : Z) : io tcp_action unit
  by wf (Z.to_nat (file_size_bytes - total_bytes_sent)) lt :=
  send_loop file_size_bytes total_bytes_sent
    with Z_lt_dec total_bytes_sent file_size_bytes := {
    | left _ =>
        _ <~ sendall (filler x61 (Z.min chunk_size (file_size_bytes - total_bytes_sent))) ;;
        send_loop file_size_bytes
          (total_bytes_sent
           + Z.of_nat (length (filler x61
                (Z.min chunk_size (file_size_bytes - total_bytes_sent)))))
    | right _ => io_ret tt }.
Proof.
  unfold filler, chunk_size. rewrite repeat_length. lia.
Qed.

(** [sock.recv(bufsize)] on a connection where [incoming] has arrived. *)
Definition recv (bufsize : nat) (incoming : list byte) : list byte :=
  firstn bufsize incoming.

Definition handle_tcp_connection (ucd : unicode_db) (incoming : list byte)
  : io tcp_action bool :=
  try_finally
    (try_except
       (text <~ lift (utf8_decode (recv 1024 incoming)) ;;
        let data := strip ucd text in
        if match data with [] => true | _ => false end
           || negb (isdigit ucd data)
        then io_ret false
        else
          n <~ lift (int ucd data) ;;
          if n <=? 0 then io_ret false
          else
            let file_size_bytes := n in
            _ <~ send_loop file_size_bytes 0 ;;
            io_ret true)
       (fun _ => io_ret false))
    close.

(** ** client.py: the requests of the transfer clients *)

(** [a // b] *)
Definition floordiv (a b : Z) : py_result Z :=
  if b =? 0 then Raise ZeroDivisionError else Ok (a / b).

Equations? decimal_digits (n : Z) : list byte by wf (Z.to_nat n) lt :=
  decimal_digits n with Z_lt_dec n 10 := {
    | left _ => [byte_of (48 + n)]
    | right _ => decimal_digits (n / 10) ++ [byte_of (48 + n mod 10)] }.
Proof.
  assert (n / 10 < n) by (apply Z.div_lt; lia).
  assert (0 <= n / 10) by (apply Z.div_pos; lia).
  lia.
Qed.

(** [f"{n}".encode()] *)
Definition str_of_int (n : Z) : list byte :=
  if n <? 0 then x2d :: decimal_digits (- n) else decimal_digits n.


(** [request_segment] of [initiate_udp_test]. *)
Definition udp_request (file_size udp_connections : Z) : py_result datagram :=
  segment_size <- floordiv file_size udp_connections ;;
  pack_IBQ MAGIC_COOKIE REQUEST_TYPE segment_size.

(** ** Vocabulary of the statements *)

Fixpoint bytes_eqb (a b : list byte) : bool :=
  match a, b with
  | [], [] => true
  | x :: a', y :: b' => Byte.eqb x y && bytes_eqb a' b'
  | _, _ => false
  end.

(** The magic cookie as it travels: AB CD DC BA. *)
Definition cookie_bytes : list byte := [xab; xcd; xdc; xba].

(** A 9-byte datagram that opens with the cookie and the Offer type. *)
Definition is_offer (data : datagram) : bool :=
  (length data =? 9)%nat && bytes_eqb (firstn 5 data) (cookie_bytes ++ [x02]).

(** What the listener has to pass over: a timeout, or a datagram that is
    not an Offer. *)
Definition passed_over (ev : udp_event) : bool :=
  match ev with
  | SocketTimeout => true
  | Datagram data _ => negb (is_offer data)
  end.

(** ceil(a / b) in the words of the specification. *)
Definition ceil_div (a b : Z) : Z := a / b + (if a mod b =? 0 then 0 else 1).

(** The datagram the server builds for chunk [k] of [chunks]. *)
Definition payload_datagram (file_size chunks k : Z) : datagram :=
  (be_bytes 4 MAGIC_COOKIE ++ be_bytes 1 PAYLOAD_TYPE
   ++ be_bytes 8 chunks ++ be_bytes 8 k)
  ++ filler x64 (Z.min chunk_size (file_size - k * chunk_size)).

(** A datagram of at least 21 bytes that opens with the cookie and the
    Payload type. *)
Definition is_payload (data : datagram) : bool :=
  (21 <=? length data)%nat && bytes_eqb (firstn 5 data) (cookie_bytes ++ [x04]).

Definition is_ascii (b : byte) : bool := byte_val b <? 128.

Definition space_byte (b : byte) : bool := ascii_isspace (byte_val b).

Definition digit_byte (b : byte) : bool := ascii_isdigit (byte_val b).

(** A run of bytes with no whitespace at either end. *)
Definition stripped (body : list byte) : bool :=
  match body with
  | [] => true
  | b :: _ => negb (space_byte b) && negb (space_byte (last body b))
  end.

(** The number an ASCII digit string denotes. *)
Definition ascii_decimal (body : list byte) : Z :=
  fold_left (fun acc b => acc * 10 + (byte_val b - 48)) body 0.

(** A non-empty ASCII digit string that denotes a positive number. *)
Definition positive_decimal (body : list byte) : bool :=
  match body with
  | [] => false
  | _ => forallb digit_byte body && (0 <? ascii_decimal body)
  end.

(** The Unicode character database cut down to ARABIC-INDIC DIGIT ZERO to
    NINE, U+0660 to U+0669, each a decimal digit and none a space.  It
    answers as the interpreter does on text made of ASCII and of these
    ten digits. *)
Definition arabic_indic_digits : unicode_db :=
  {| nonascii_isspace := fun _ => false;
     nonascii_isdigit := fun c => in_range 0x660 0x669 c;
     nonascii_decimal := fun c =>
       if in_range 0x660 0x669 c then Some (c - 0x660) else None |}.

(** ** server.py: the Offer broadcaster

    [udp_offer_sender] never leaves its [while True] on its own; [rounds]
    is the number of iterations that have run. *)

Definition broadcast_address (SERVER_UDP_PORT : Z) : address :=
  ("<broadcast>"%string, SERVER_UDP_PORT).

Definition udp_offer_sender (SERVER_UDP_PORT SERVER_TCP_PORT : Z) (rounds : nat)
  : io (datagram * address) unit :=
  try_except
    (offer <~ lift (offer_message SERVER_UDP_PORT SERVER_TCP_PORT) ;;
     for_each (repeat tt rounds)
       (fun _ => sendto offer (broadcast_address SERVER_UDP_PORT)))
    (fun _ => io_ret tt).

(** ** client.py: the TCP transfer client *)

Inductive tcp_exit : Type :=
| SegmentReceived
| PeerClosed.

(** The [while bytes_receive < segment_size] loop; [reads] is what the
    successive [recv(1024)] calls return, the empty bytes object standing
    for a closed connection. *)
Inductive tcp_loop_result : Type :=
| TcpExited (why : tcp_exit) (bytes_receive : Z) (unread : list (list byte))
| TcpReading (bytes_receive : Z).

Fixpoint tcp_receive_loop (segment_size : Z) (reads : list (list byte))
    (bytes_receive : Z) : tcp_loop_result :=
  if bytes_receive <? segment_size then
    match reads with
    | [] => TcpReading bytes_receive
    | c :: rest =>
        match c with
        | [] => TcpExited PeerClosed bytes_receive rest
        | _ => tcp_receive_loop segment_size rest
                 (bytes_receive + Z.of_nat (length c))
        end
    end
  else TcpExited SegmentReceived bytes_receive reads.

(** The interpreter's default limit on conversions between [int] and
    [str]: more than 4300 digits raise [ValueError]. *)
Definition int_max_str_digits : nat := 4300.

(** [f"{n}"] under that limit. *)
Definition format_int (n : Z) : py_result (list byte) :=
  if (int_max_str_digits <? length (decimal_digits (Z.abs n)))%nat
  then Raise ValueError
  else Ok (str_of_int n).

(** [initiate_tcp_test] on a connected socket: what it writes, and the
    state of its loop when the function is over ([None] after an
    exception). *)
Definition initiate_tcp_test (file_size tcp_connections : Z)
    (reads : list (list byte)) : io tcp_action (option tcp_loop_result) :=
  try_finally
    (try_except
       (segment_size <~ lift (floordiv file_size tcp_connections) ;;
        line <~ lift (format_int segment_size) ;;
        _ <~ sendall (line ++ [x0a]) ;;
        io_ret (Some (tcp_receive_loop segment_size reads 0)))
       (fun _ => io_ret None))
    close.

(** What a client sees of a server's writes when every [sendall] arrives
    as one read and the close as the empty read. *)
Definition reads_of (trace : list tcp_action) : list (list byte) :=
  map (fun a => match a with Sendall chunk => chunk | Close => [] end) trace.

(** ** client.py: the prompts

    [stdin] holds the lines [input] will return; with none left [input]
    raises, which [get_user_input] catches like any other exception. *)

Section Prompts.
Variable ucd : unicode_db.

(** [int(s)] under the same limit. *)
Definition int_of_input (s : list Z) : py_result Z :=
  if (int_max_str_digits <? length s)%nat then Raise ValueError else int ucd s.

(** One prompt: [input(...).strip()], the [isdigit] and [int] test, and
    the conversion.  [None] is the [return None] of either the test or the
    [except] clause. *)
Definition prompt (stdin : list (list Z)) : option Z * list (list Z) :=
  match stdin with
  | [] => (None, [])
  | line :: rest =>
      let text := strip ucd line in
      if negb (isdigit ucd text) then (None, rest)
      else
        match int_of_input text with
        | Raise _ => (None, rest)
        | Ok n => if n <=? 0 then (None, rest) else (Some n, rest)
        end
  end.

Definition get_user_input (stdin : list (list Z))
  : option (Z * Z * Z) * list (list Z) :=
  match prompt stdin with
  | (None, rest) => (None, rest)
  | (Some file_size, rest) =>
      match prompt rest with
      | (None, rest) => (None, rest)
      | (Some tcp_connections, rest) =>
          match prompt rest with
          | (None, rest) => (None, rest)
          | (Some udp_connections, rest) =>
              (Some (file_size, tcp_connections, udp_connections), rest)
          end
      end
  end.

(** ** client.py: the orchestrator and [main] *)

(** A started thread: its target and the arguments it was given. *)
Inductive worker : Type :=
| TcpWorker (server_ip : string) (tcp_port file_size tcp_connections transfer_id : Z)
| UdpWorker (server_ip : string) (udp_port file_size udp_connections transfer_id : Z).

(** The threads [initiate_speed_test] starts, in the order it starts
    them. *)
Definition initiate_speed_test (server_ip : string)
    (tcp_port udp_port file_size tcp_connections udp_connections : Z) : list worker :=
  map (fun i => TcpWorker server_ip tcp_port file_size tcp_connections (i + 1))
      (range tcp_connections)
  ++ map (fun i => UdpWorker server_ip udp_port file_size udp_connections (i + 1))
         (range udp_connections).

Inductive main_result : Type :=
| StillListening
| NoValidOffer
| Exit1
| Started (workers : list worker).

(** [main] of the client. *)
Definition client_main (incoming : list udp_event) (stdin : list (list Z))
  : main_result :=
  match listen_for_offers incoming with
  | Listening => StillListening
  | Returned server_ip_address server_tcp_port server_udp_port _ =>
      if String.eqb server_ip_address EmptyString
         || (server_tcp_port =? 0) || (server_udp_port =? 0)
      then NoValidOffer
      else
        match get_user_input stdin with
        | (Some (file_size, tcp_connections, udp_connections), _) =>
            Started (initiate_speed_test server_ip_address server_tcp_port
                       server_udp_port file_size tcp_connections udp_connections)
        | (None, _) => Exit1
        end
  end.
End Prompts.

(** ** Vocabulary of the further statements *)

(** A 13-byte datagram that opens with the cookie and the Request type. *)
Definition is_request (data : datagram) : bool :=
  (length data =? 13)%nat && bytes_eqb (firstn 5 data) (cookie_bytes ++ [x03]).

(** The size a Request asks for, and the total a Payload announces. *)
Definition size_field (data : datagram) : Z := be_value (slice 5 8 data).

(** The number of datagrams the server sends for [file_size]. *)
Definition chunks_of (file_size : Z) : Z := (file_size + chunk_size - 1) / chunk_size.

(** An arrival of one of the datagrams the server sends for [file_size]. *)
Definition from_server (file_size : Z) (ev : recv_event) : bool :=
  match ev with
  | Received _ data =>
      existsb (fun k => bytes_eqb data (payload_datagram file_size (chunks_of file_size) k))
              (range (chunks_of file_size))
  | TimedOut _ => false
  end.

Definition is_arrival (ev : recv_event) : bool :=
  match ev with
  | Received _ _ => true
  | TimedOut _ => false
  end.

(** The reading of the clock at the latest arrival, [start] if none. *)
Definition last_arrival (start : Z) (incoming : list recv_event) : Z :=
  fold_left (fun t ev => match ev with Received now _ => now | TimedOut _ => t end)
            incoming start.

(** The bytes a line of text made of ASCII occupies, as code points. *)
Definition text_of (line : list byte) : list Z := map byte_val line.

(** A valid Payload that announces [total] segments. *)
Definition announces (total : Z) (ev : recv_event) : bool :=
  match ev with
  | Received _ data => is_payload data && (size_field data =? total)
  | TimedOut _ => false
  end.

(** The filler bytes carried by the datagrams of a trace. *)
Definition filler_bytes (sent : list (datagram * address)) : nat :=
  list_sum (map (fun m => (length (fst m) - 21)%nat) sent).

Definition nonempty (c : list byte) : bool :=
  match c with
  | [] => false
  | _ => true
  end.

(** The datagrams of [sent] arriving in the order sent, the one in
    position [i] at the time in position [i] of [times]. *)
Definition deliver (times : list Z) (sent : list (datagram * address))
  : list recv_event :=
  map (fun p => Received (fst p) (fst (snd p))) (combine times sent).

(** What a run holds when nothing but valid Payloads announcing [total]
    is read: each event is such a Payload, or a timeout. *)
Definition agreed (total : Z) (ev : recv_event) : bool :=
  match ev with
  | Received _ data => is_payload data && (size_field data =? total)
  | TimedOut _ => true
  end.

(** What the counters satisfy as long as only valid Payloads announcing
    [total] have been read and the loop has not completed. *)
Definition below_total (total : Z) (st : transfer) : Prop :=
  0 <= received_segments st
  /\ (total_segment_count st = 0 \/ total_segment_count st = total)
  /\ (total_segment_count st = 0 \/ received_segments st < total_segment_count st)
  /\ (total <> 0 -> total_segment_count st = 0 -> received_segments st = 0).

(** ** Codec facts *)

Lemma byte_val_range (b : byte) : 0 <= byte_val b < 256.
Proof.
  unfold byte_val. pose proof (Byte.to_N_bounded b). lia.
Qed.

Lemma byte_of_val (b : byte) : byte_of (byte_val b) = b.
Proof.
  unfold byte_of. pose proof (byte_val_range b) as R.
  rewrite Z.mod_small by exact R.
  unfold byte_val. rewrite N2Z.id, Byte.of_to_N. reflexivity.
Qed.

Lemma byte_val_of (v : Z) : byte_val (byte_of v) = v mod 256.
Proof.
  unfold byte_of, byte_val.
  pose proof (Z.mod_pos_bound v 256 ltac:(lia)) as R.
  destruct (Byte.of_N (Z.to_N (v mod 256))) as [b|] eqn:E.
  - apply Byte.to_of_N in E. rewrite E. lia.
  - apply Byte.of_N_None_iff in E. lia.
Qed.

Lemma be_value_app (l : list byte) (b : byte) :
  be_value (l ++ [b]) = be_value l * 256 + byte_val b.
Proof.
  unfold be_value. rewrite fold_left_app. reflexivity.
Qed.

Lemma be_bytes_length (n : nat) (v : Z) : length (be_bytes n v) = n.
Proof.
  revert v. induction n as [|n IH]; intro v; simpl.
  - reflexivity.
  - rewrite length_app, IH. simpl. lia.
Qed.

Lemma be_value_bytes (n : nat) (v : Z) :
  be_value (be_bytes n v) = v mod 256 ^ Z.of_nat n.
Proof.
  revert v. induction n as [|n IH]; intro v.
  - simpl. rewrite Z.mod_1_r. reflexivity.
  - cbn [be_bytes]. rewrite be_value_app, IH, byte_val_of.
    rewrite Nat2Z.inj_succ, Z.pow_succ_r by lia.
    assert (0 < 256 ^ Z.of_nat n) by (apply Z.pow_pos_nonneg; lia).
    rewrite Z.rem_mul_r by lia.
    lia.
Qed.

Lemma be_value_range (l : list byte) : 0 <= be_value l < 256 ^ Z.of_nat (length l).
Proof.
  induction l as [|b l IH] using rev_ind.
  - cbn. lia.
  - rewrite be_value_app, length_app. cbn [length].
    replace (Z.of_nat (length l + 1)) with (Z.succ (Z.of_nat (length l))) by lia.
    rewrite Z.pow_succ_r by lia.
    pose proof (byte_val_range b). lia.
Qed.

Lemma be_bytes_value (l : list byte) : be_bytes (length l) (be_value l) = l.
Proof.
  induction l as [|b l IH] using rev_ind.
  - reflexivity.
  - rewrite length_app. cbn [length]. rewrite Nat.add_1_r. cbn [be_bytes].
    rewrite be_value_app.
    pose proof (byte_val_range b) as R.
    replace ((be_value l * 256 + byte_val b) / 256) with (be_value l).
    2:{ symmetry. rewrite Z.add_comm, Z.div_add by lia.
        rewrite Z.div_small by lia. reflexivity. }
    rewrite IH. f_equal. f_equal.
    rewrite <- (byte_of_val b) at 2.
    unfold byte_of. rewrite Z.add_comm, Z.mod_add by lia. reflexivity.
Qed.

Lemma pack_field_value (l : list byte) : pack_field (length l) (be_value l) = Ok l.
Proof.
  unfold pack_field. pose proof (be_value_range l) as R.
  replace (0 <=? be_value l) with true by (symmetry; apply Z.leb_le; lia).
  replace (be_value l <? 256 ^ Z.of_nat (length l)) with true
    by (symmetry; apply Z.ltb_lt; lia).
  cbn. rewrite be_bytes_value. reflexivity.
Qed.


Lemma pack_field_ok (n : nat) (v : Z) (l : list byte) :
  pack_field n v = Ok l -> l = be_bytes n v /\ be_value l = v /\ length l = n.
Proof.
  unfold pack_field. intro H.
  destruct (0 <=? v) eqn:E1; destruct (v <? 256 ^ Z.of_nat n) eqn:E2;
    cbn in H; try discriminate.
  injection H as <-. apply Z.leb_le in E1. apply Z.ltb_lt in E2.
  repeat split.
  - rewrite be_value_bytes. apply Z.mod_small. lia.
  - apply be_bytes_length.
Qed.

Lemma pack_field_in_range (n : nat) (v : Z) :
  0 <= v < 256 ^ Z.of_nat n -> pack_field n v = Ok (be_bytes n v).
Proof.
  intros [H1 H2]. unfold pack_field.
  apply Z.leb_le in H1. apply Z.ltb_lt in H2. rewrite H1, H2. reflexivity.
Qed.

Lemma bytes_eqb_eq (a b : list byte) : bytes_eqb a b = true <-> a = b.
Proof.
  revert b. induction a as [|x a IH]; intros [|y b]; cbn; split; intro H;
    try reflexivity; try discriminate.
  - apply andb_true_iff in H as [H1 H2]. apply Byte.byte_dec_bl in H1.
    apply IH in H2. congruence.
  - injection H as -> ->. apply andb_true_iff. split.
    + apply Byte.byte_dec_lb. reflexivity.
    + apply IH. reflexivity.
Qed.

(** A field of known width is determined by its value. *)
Lemma be_value_inj (l : list byte) (n : nat) (v : Z) :
  length l = n -> be_value l = v -> l = be_bytes n v.
Proof.
  intros <- <-. symmetry. apply be_bytes_value.
Qed.

Ltac nine_bytes data H :=
  do 9 (destruct data as [|? data]; [discriminate H|]);
  destruct data; [|discriminate H].

(** ** The Offer codec *)

(** C6: any 9-byte Offer decodes into its four fields, and packing those
    fields with the Offer layout gives the same 9 bytes back. *)
Theorem offer_decode_encode (data : datagram) :
  is_offer data = true ->
  exists udp_port tcp_port,
    unpack_IBHH data = Ok (MAGIC_COOKIE, OFFER_TYPE, udp_port, tcp_port)
    /\ pack_IBHH MAGIC_COOKIE OFFER_TYPE udp_port tcp_port = Ok data.
Proof.
  unfold is_offer. intro H. apply andb_true_iff in H as [Hlen Hhead].
  apply Nat.eqb_eq in Hlen. apply bytes_eqb_eq in Hhead.
  nine_bytes data Hlen. cbn in Hhead. injection Hhead as -> -> -> -> ->.
  exists (be_value [b4; b5]), (be_value [b6; b7]). split.
  - reflexivity.
  - unfold pack_IBHH.
    rewrite (pack_field_value [b4; b5] : pack_field 2 _ = _).
    rewrite (pack_field_value [b6; b7] : pack_field 2 _ = _).
    reflexivity.
Qed.

Lemma offer_decode_encode_witness :
  is_offer [xab; xcd; xdc; xba; x02; x3a; x98; x3e; x80] = true
  /\ exists udp_port tcp_port,
       unpack_IBHH [xab; xcd; xdc; xba; x02; x3a; x98; x3e; x80]
         = Ok (MAGIC_COOKIE, OFFER_TYPE, udp_port, tcp_port)
       /\ pack_IBHH MAGIC_COOKIE OFFER_TYPE udp_port tcp_port
         = Ok [xab; xcd; xdc; xba; x02; x3a; x98; x3e; x80].
Proof.
  split; [reflexivity | apply offer_decode_encode; reflexivity].
Defined.

(** ** The discovery listener *)

(** The listener's own test agrees with [is_offer]. *)
Lemma unpack_offer_spec (data : datagram) :
  match unpack_IBHH data with
  | Ok (magic_cookie, message_type, udp_port, tcp_port) =>
      (magic_cookie =? MAGIC_COOKIE) && (message_type =? OFFER_TYPE) = is_offer data
      /\ udp_port = be_value (slice 5 2 data)
      /\ tcp_port = be_value (slice 7 2 data)
  | Raise _ => is_offer data = false
  end.
Proof.
  unfold unpack_IBHH, is_offer.
  destruct (length data =? 9)%nat eqn:Hlen; [|reflexivity].
  apply Nat.eqb_eq in Hlen. nine_bytes data Hlen.
  split; [|split; reflexivity].
  cbn [andb slice skipn firstn cookie_bytes app].
  destruct (bytes_eqb [b; b0; b1; b2; b3] [xab; xcd; xdc; xba; x02]) eqn:E.
  - apply bytes_eqb_eq in E. injection E as -> -> -> -> ->. reflexivity.
  - apply andb_false_iff.
    destruct (be_value [b; b0; b1; b2] =? MAGIC_COOKIE) eqn:E1; [right|now left].
    destruct (be_value [b3] =? OFFER_TYPE) eqn:E2; [|reflexivity].
    apply Z.eqb_eq in E1, E2.
    apply (be_value_inj _ 4) in E1; [|reflexivity].
    apply (be_value_inj _ 1) in E2; [|reflexivity].
    cbn in E1, E2. injection E1 as -> -> -> ->. injection E2 as ->.
    cbn in E. discriminate.
Qed.

Lemma listen_passes_over (pre rest : list udp_event) :
  forallb passed_over pre = true ->
  listen_for_offers (pre ++ rest) = listen_for_offers rest.
Proof.
  induction pre as [|ev pre IH]; intro H; [reflexivity|].
  cbn in H. apply andb_true_iff in H as [Hev Hpre].
  destruct ev as [data sender|]; cbn [app listen_for_offers].
  - cbn in Hev. apply negb_true_iff in Hev.
    pose proof (unpack_offer_spec data) as S.
    destruct (unpack_IBHH data) as [[[[m t] u] p]|e].
    + destruct S as [S _]. rewrite S, Hev. apply IH, Hpre.
    + apply IH, Hpre.
  - apply IH, Hpre.
Qed.

(** C7: the listener passes over timeouts and every datagram that is not a
    9-byte Offer with the right cookie and type, staying in its loop; at
    the first Offer it returns the sender's IP, the TCP port read from
    bytes 7-8 and the UDP port read from bytes 5-6, and reads nothing
    after it. *)
Theorem listener_returns_first_offer
    (pre post : list udp_event) (data : datagram) (sender : address) :
  forallb passed_over pre = true ->
  is_offer data = true ->
  listen_for_offers pre = Listening
  /\ listen_for_offers (pre ++ Datagram data sender :: post)
     = Returned (fst sender) (be_value (slice 7 2 data))
                (be_value (slice 5 2 data)) post.
Proof.
  intros Hpre Hdata. split.
  - rewrite <- (app_nil_r pre) at 1. rewrite listen_passes_over by exact Hpre.
    reflexivity.
  - rewrite listen_passes_over by exact Hpre. cbn [listen_for_offers].
    pose proof (unpack_offer_spec data) as S.
    destruct (unpack_IBHH data) as [[[[m t] u] p]|e].
    + destruct S as (S & -> & ->). rewrite S, Hdata. reflexivity.
    + congruence.
Qed.

Lemma listener_returns_first_offer_witness :
  let wrong_cookie := [xab; xcd; xdc; xbb; x02; x3a; x98; x3e; x80] in
  let offer := [xab; xcd; xdc; xba; x02; x3a; x98; x3e; x80] in
  let pre := [SocketTimeout; Datagram wrong_cookie ("10.0.0.9"%string, 15000);
              Datagram [x01; x02] ("10.0.0.9"%string, 15000)] in
  let post := [Datagram offer ("10.0.0.8"%string, 15000)] in
  listen_for_offers pre = Listening
  /\ listen_for_offers (pre ++ Datagram offer ("10.0.0.7"%string, 15000) :: post)
     = Returned "10.0.0.7"%string 16000 15000 post.
Proof.
  cbv zeta.
  exact (listener_returns_first_offer
           [SocketTimeout;
            Datagram [xab; xcd; xdc; xbb; x02; x3a; x98; x3e; x80]
                     ("10.0.0.9"%string, 15000);
            Datagram [x01; x02] ("10.0.0.9"%string, 15000)]
           [Datagram [xab; xcd; xdc; xba; x02; x3a; x98; x3e; x80]
                     ("10.0.0.8"%string, 15000)]
           [xab; xcd; xdc; xba; x02; x3a; x98; x3e; x80]
           ("10.0.0.7"%string, 15000) eq_refl eq_refl).
Defined.

(** ** The UDP transfer server *)

Lemma ceil_div_formula (a b : Z) : 0 < b -> (a + b - 1) / b = ceil_div a b.
Proof.
  intro Hb. unfold ceil_div.
  pose proof (Z.div_mod a b ltac:(lia)) as D.
  pose proof (Z.mod_pos_bound a b Hb) as R.
  destruct (a mod b =? 0) eqn:E.
  - apply Z.eqb_eq in E. rewrite Z.add_0_r. symmetry.
    apply (Z.div_unique _ _ _ (b - 1)); lia.
  - apply Z.eqb_neq in E. symmetry.
    apply (Z.div_unique _ _ _ (a mod b - 1)); lia.
Qed.

Lemma for_each_writes {W X : Type} (f : X -> W) (body : X -> io W unit) (xs : list X) :
  (forall x, In x xs -> forall w, body x w = (Ok tt, w ++ [f x])) ->
  forall w, for_each xs body w = (Ok tt, w ++ map f xs).
Proof.
  induction xs as [|x xs IH]; intros Hbody w; cbn.
  - rewrite app_nil_r. reflexivity.
  - unfold io_bind. rewrite Hbody by (left; reflexivity).
    rewrite IH by (intros; apply Hbody; right; assumption).
    rewrite <- app_assoc. reflexivity.
Qed.

Lemma in_range_iff (n k : Z) : In k (range n) <-> 0 <= k < n.
Proof.
  unfold range. rewrite in_map_iff. split.
  - intros (i & <- & Hi). apply in_seq in Hi. lia.
  - intro H. exists (Z.to_nat k). split; [lia|]. apply in_seq. lia.
Qed.

Lemma range_length (n : Z) : length (range n) = Z.to_nat n.
Proof.
  unfold range. rewrite length_map, length_seq. reflexivity.
Qed.

Lemma range_nth (n k : Z) : 0 <= k < n -> nth_error (range n) (Z.to_nat k) = Some k.
Proof.
  intro H. unfold range. rewrite nth_error_map, nth_error_seq.
  destruct (Nat.ltb_spec (Z.to_nat k) (Z.to_nat n)); [|lia].
  cbn. f_equal. lia.
Qed.

Lemma pack_payload_header (chunks k : Z) :
  0 <= chunks < 2 ^ 64 -> 0 <= k < 2 ^ 64 ->
  pack_IBQQ MAGIC_COOKIE PAYLOAD_TYPE chunks k
  = Ok (be_bytes 4 MAGIC_COOKIE ++ be_bytes 1 PAYLOAD_TYPE
        ++ be_bytes 8 chunks ++ be_bytes 8 k).
Proof.
  intros Hc Hk. unfold pack_IBQQ.
  rewrite (pack_field_in_range 8 chunks) by (cbn; lia).
  rewrite (pack_field_in_range 8 k) by (cbn; lia).
  reflexivity.
Qed.

Lemma unpack_payload_header (chunks k : Z) :
  0 <= chunks < 2 ^ 64 -> 0 <= k < 2 ^ 64 ->
  unpack_IBQQ (be_bytes 4 MAGIC_COOKIE ++ be_bytes 1 PAYLOAD_TYPE
               ++ be_bytes 8 chunks ++ be_bytes 8 k)
  = Ok (MAGIC_COOKIE, PAYLOAD_TYPE, chunks, k).
Proof.
  intros Hc Hk.
  pose proof (be_value_bytes 8 chunks) as Vc.
  pose proof (be_value_bytes 8 k) as Vk.
  rewrite Z.mod_small in Vc by (cbn; lia).
  rewrite Z.mod_small in Vk by (cbn; lia).
  pose proof (be_bytes_length 8 chunks) as Lc.
  pose proof (be_bytes_length 8 k) as Lk.
  destruct (be_bytes 8 chunks) as [|c0 [|c1 [|c2 [|c3 [|c4 [|c5 [|c6 [|c7 [|]]]]]]]]];
    try discriminate Lc.
  destruct (be_bytes 8 k) as [|k0 [|k1 [|k2 [|k3 [|k4 [|k5 [|k6 [|k7 [|]]]]]]]]];
    try discriminate Lk.
  cbn -[be_value]. rewrite Vc, Vk. reflexivity.
Qed.

(** What the handler does with a well-formed Request. *)
Lemma handle_udp_request (data : datagram) (client_address : address) (file_size : Z) :
  unpack_IBQ data = Ok (MAGIC_COOKIE, REQUEST_TYPE, file_size) ->
  let chunks := (file_size + chunk_size - 1) / chunk_size in
  0 <= file_size < 2 ^ 64
  /\ run (handle_udp_connection data client_address)
     = (Ok true,
        map (fun k => (payload_datagram file_size chunks k, client_address))
            (range chunks)).
Proof.
  intros Hreq chunks.
  assert (Hlen : (length data =? 13)%nat = true).
  { unfold unpack_IBQ in Hreq. destruct (length data =? 13)%nat; [reflexivity|discriminate]. }
  assert (Hsize : 0 <= file_size < 2 ^ 64).
  { unfold unpack_IBQ in Hreq. rewrite Hlen in Hreq. injection Hreq as _ _ <-.
    pose proof (be_value_range (slice 5 8 data)) as R.
    assert (L : (length (slice 5 8 data) <= 8)%nat)
      by (unfold slice; apply firstn_le_length).
    assert (256 ^ Z.of_nat (length (slice 5 8 data)) <= 256 ^ 8)
      by (apply Z.pow_le_mono_r; lia).
    change (2 ^ 64) with (256 ^ 8). lia. }
  split; [exact Hsize|].
  assert (Hchunks : 0 <= chunks < 2 ^ 64).
  { subst chunks. unfold chunk_size. split.
    - apply Z.div_pos; lia.
    - apply Z.div_lt_upper_bound; lia. }
  unfold run, handle_udp_connection, try_except, io_bind, lift.
  rewrite Hlen, Hreq. cbn [negb].
  rewrite !Z.eqb_refl. cbn [negb orb].
  fold chunks.
  rewrite (for_each_writes
             (fun k => (payload_datagram file_size chunks k, client_address))).
  - reflexivity.
  - intros k Hk w. apply in_range_iff in Hk.
    unfold io_bind, lift. rewrite pack_payload_header by lia.
    reflexivity.
Qed.

(** C5: for a well-formed Request of [file_size] bytes the handler sends
    ceil(file_size / 1024) datagrams and reports success; the datagram in
    position [k] carries the header (cookie, Payload type, that count, k)
    followed by min(1024, file_size - 1024 k) filler bytes.  At 2500 this
    is 3 datagrams, indices 0, 1, 2, the last with 452 filler bytes. *)
Theorem udp_server_sends_ceil_chunks
    (data : datagram) (client_address : address) (file_size : Z) :
  unpack_IBQ data = Ok (MAGIC_COOKIE, REQUEST_TYPE, file_size) ->
  exists sent,
    run (handle_udp_connection data client_address) = (Ok true, sent)
    /\ Z.of_nat (length sent) = ceil_div file_size 1024
    /\ forall k, 0 <= k < ceil_div file_size 1024 ->
         exists header payload,
           nth_error sent (Z.to_nat k) = Some (header ++ payload, client_address)
           /\ unpack_IBQQ header
              = Ok (MAGIC_COOKIE, PAYLOAD_TYPE, ceil_div file_size 1024, k)
           /\ payload = repeat x64 (Z.to_nat (Z.min 1024 (file_size - 1024 * k))).
Proof.
  intro Hreq.
  destruct (handle_udp_request data client_address file_size Hreq) as [Hsize Hrun].
  cbv zeta in Hrun.
  change ((file_size + chunk_size - 1) / chunk_size)
    with ((file_size + 1024 - 1) / 1024) in Hrun.
  rewrite ceil_div_formula in Hrun by lia.
  set (chunks := ceil_div file_size 1024) in *.
  assert (Hchunks : 0 <= chunks < 2 ^ 64).
  { subst chunks. rewrite <- ceil_div_formula by lia. split.
    - apply Z.div_pos; lia.
    - apply Z.div_lt_upper_bound; lia. }
  eexists. split; [exact Hrun|]. split.
  - rewrite length_map, range_length. lia.
  - intros k Hk.
    exists (be_bytes 4 MAGIC_COOKIE ++ be_bytes 1 PAYLOAD_TYPE
            ++ be_bytes 8 chunks ++ be_bytes 8 k).
    exists (repeat x64 (Z.to_nat (Z.min 1024 (file_size - 1024 * k)))).
    split; [|split].
    + rewrite nth_error_map, range_nth by exact Hk. cbn [option_map].
      unfold payload_datagram, filler, chunk_size.
      rewrite (Z.mul_comm k 1024). reflexivity.
    + apply unpack_payload_header; lia.
    + reflexivity.
Qed.

Lemma udp_server_sends_ceil_chunks_witness :
  let request := [xab; xcd; xdc; xba; x03; x00; x00; x00; x00; x00; x00; x09; xc4] in
  unpack_IBQ request = Ok (MAGIC_COOKIE, REQUEST_TYPE, 2500)
  /\ exists sent,
       run (handle_udp_connection request ("10.0.0.7"%string, 40000)) = (Ok true, sent)
       /\ Z.of_nat (length sent) = 3
       /\ forall k, 0 <= k < 3 ->
            exists header payload,
              nth_error sent (Z.to_nat k)
                = Some (header ++ payload, ("10.0.0.7"%string, 40000))
              /\ unpack_IBQQ header = Ok (MAGIC_COOKIE, PAYLOAD_TYPE, 3, k)
              /\ payload = repeat x64 (Z.to_nat (Z.min 1024 (2500 - 1024 * k))).
Proof.
  cbv zeta. split; [reflexivity|].
  exact (udp_server_sends_ceil_chunks
           [xab; xcd; xdc; xba; x03; x00; x00; x00; x00; x00; x00; x09; xc4]
           ("10.0.0.7"%string, 40000) 2500 eq_refl).
Defined.

(** A datagram that does not open with the cookie gets no Payload back:
    the handler writes nothing and reports failure. *)
Lemma udp_server_rejects_bad_cookie (data : datagram) (client_address : address) :
  firstn 4 data <> cookie_bytes ->
  run (handle_udp_connection data client_address) = (Ok false, []).
Proof.
  intro Hbad. unfold run, handle_udp_connection, try_except, io_bind, lift, unpack_IBQ.
  destruct (length data =? 13)%nat eqn:Hlen; [|reflexivity].
  cbn [negb].
  destruct (be_value (slice 0 4 data) =? MAGIC_COOKIE) eqn:E; [|reflexivity].
  exfalso. apply Hbad. apply Z.eqb_eq in E.
  apply (be_value_inj _ 4) in E.
  - exact E.
  - apply Nat.eqb_eq in Hlen. unfold slice. cbn [skipn].
    rewrite firstn_length_le; lia.
Qed.

(** C10: a 13-byte Request with the right cookie and type and size 0 makes
    the UDP handler send nothing and return True, whereas the TCP handler
    turns the request line "0" down. *)
Theorem udp_server_accepts_zero_size (data : datagram) (client_address : address) :
  unpack_IBQ data = Ok (MAGIC_COOKIE, REQUEST_TYPE, 0) ->
  run (handle_udp_connection data client_address) = (Ok true, [])
  /\ forall ucd, run (handle_tcp_connection ucd [x30; x0a]) = (Ok false, [Close]).
Proof.
  intro Hreq. split.
  - destruct (handle_udp_request data client_address 0 Hreq) as [_ Hrun].
    exact Hrun.
  - intro ucd. reflexivity.
Qed.

Lemma udp_server_accepts_zero_size_witness :
  let request := [xab; xcd; xdc; xba; x03; x00; x00; x00; x00; x00; x00; x00; x00] in
  unpack_IBQ request = Ok (MAGIC_COOKIE, REQUEST_TYPE, 0)
  /\ run (handle_udp_connection request ("10.0.0.7"%string, 40000)) = (Ok true, [])
  /\ forall ucd, run (handle_tcp_connection ucd [x30; x0a]) = (Ok false, [Close]).
Proof.
  cbv zeta. split; [reflexivity|].
  exact (udp_server_accepts_zero_size
           [xab; xcd; xdc; xba; x03; x00; x00; x00; x00; x00; x00; x00; x00]
           ("10.0.0.7"%string, 40000) eq_refl).
Defined.

(** ** The UDP transfer client *)

(** On a valid Payload the counter goes up by one and the announced total
    is taken from the header. *)
Lemma loop_body_valid_payload (now : Z) (data : datagram) (st : transfer) :
  is_payload data = true ->
  let st' := fst (loop_body (Received now data) st) in
  received_segments st' = received_segments st + 1
  /\ total_segment_count st' = be_value (slice 5 8 data)
  /\ last_received_time st' = now.
Proof.
  unfold is_payload. intro H. apply andb_true_iff in H as [Hlen Hhead].
  apply Nat.leb_le in Hlen. apply bytes_eqb_eq in Hhead.
  do 21 (destruct data as [|? data]; [cbn in Hlen; lia|]).
  cbn in Hhead. injection Hhead as -> -> -> -> ->.
  cbn -[be_value Z.eqb].
  change (be_value [xab; xcd; xdc; xba] =? MAGIC_COOKIE) with true.
  change (be_value [x04] =? PAYLOAD_TYPE) with true.
  cbn -[be_value Z.eqb].
  destruct (_ =? _); cbn; repeat split; reflexivity.
Qed.

(** C1: a 2-byte datagram, and a 21-byte datagram whose cookie is wrong,
    both raise [received_segments] from 0 to 1; the second also sets
    [total_segment_count] to the 7 of its header. *)
Theorem invalid_datagram_is_counted :
  loop_body (Received 40 [x68; x69]) (initial_transfer 0)
  = ({| received_segments := 1; total_segment_count := 0;
        last_received_time := 40 |}, Continue)
  /\ is_payload [x00; x00; x00; x00; x04;
                 x00; x00; x00; x00; x00; x00; x00; x07;
                 x00; x00; x00; x00; x00; x00; x00; x00] = false
  /\ loop_body (Received 40 [x00; x00; x00; x00; x04;
                             x00; x00; x00; x00; x00; x00; x00; x07;
                             x00; x00; x00; x00; x00; x00; x00; x00])
               (initial_transfer 0)
     = ({| received_segments := 1; total_segment_count := 7;
           last_received_time := 40 |}, Continue).
Proof.
  repeat split; reflexivity.
Qed.

(** C3: in the middle of a transfer (2 of 5 segments received, last one at
    time 10) a datagram that opens with DE AD BE EF instead of the cookie
    is not without effect: the counter becomes 3, the announced total
    becomes 9 and the idle clock restarts at 700. *)
Theorem client_bad_cookie_changes_transfer :
  firstn 4 [xde; xad; xbe; xef; x04;
            x00; x00; x00; x00; x00; x00; x00; x09;
            x00; x00; x00; x00; x00; x00; x00; x01; x64; x64] <> cookie_bytes
  /\ loop_body (Received 700 [xde; xad; xbe; xef; x04;
                              x00; x00; x00; x00; x00; x00; x00; x09;
                              x00; x00; x00; x00; x00; x00; x00; x01; x64; x64])
               {| received_segments := 2; total_segment_count := 5;
                  last_received_time := 10 |}
     = ({| received_segments := 3; total_segment_count := 9;
           last_received_time := 700 |}, Continue).
Proof.
  split; [discriminate | reflexivity].
Qed.

Lemma loop_body_counters (ev : recv_event) (st : transfer) :
  0 <= received_segments st -> 0 <= total_segment_count st ->
  let (st', c) := loop_body ev st in
  0 <= received_segments st' /\ 0 <= total_segment_count st'
  /\ (c = Break Completed ->
      received_segments st' = total_segment_count st' /\ 0 < total_segment_count st').
Proof.
  intros Hr Ht. destruct ev as [now data|now]; cbn [loop_body].
  - destruct (length data <? 21)%nat.
    + cbn [received_segments total_segment_count]. repeat split; first [lia | congruence].
    + unfold unpack_IBQQ. destruct (length (firstn 21 data) =? 21)%nat.
      * pose proof (be_value_range (slice 5 8 (firstn 21 data))) as R.
        destruct (negb _ || negb _).
        -- cbn [received_segments total_segment_count]. repeat split; first [lia | congruence].
        -- cbn [received_segments total_segment_count].
           destruct (received_segments st + 1 =? _) eqn:E.
           ++ apply Z.eqb_eq in E. cbn [received_segments total_segment_count]. repeat split; lia.
           ++ cbn [received_segments total_segment_count]. repeat split; first [lia | congruence].
      * cbn [received_segments total_segment_count]. repeat split; first [lia | congruence].
  - destruct (now - last_received_time st >? 1000); repeat split;
      first [lia | congruence].
Qed.

Lemma receive_loop_exit (incoming : list recv_event) (st0 st : transfer) (why : loop_exit) :
  0 <= received_segments st0 -> 0 <= total_segment_count st0 ->
  receive_loop incoming st0 = Exited why st ->
  0 <= received_segments st /\ 0 <= total_segment_count st
  /\ (why = Completed ->
      received_segments st = total_segment_count st /\ 0 < total_segment_count st).
Proof.
  revert st0. induction incoming as [|ev rest IH]; intros st0 Hr Ht Hrun.
  - discriminate.
  - cbn [receive_loop] in Hrun.
    pose proof (loop_body_counters ev st0 Hr Ht) as B.
    destruct (loop_body ev st0) as [st' c]. destruct B as (Hr' & Ht' & Hc).
    destruct c as [|why'|e].
    + apply (IH st'); assumption.
    + injection Hrun as -> ->.
      split; [assumption | split; [assumption | intros ->; apply Hc; reflexivity]].
    + discriminate.
Qed.

Lemma success_rate_full (st : transfer) :
  0 < total_segment_count st -> received_segments st = total_segment_count st ->
  (success_rate st == 100)%Q.
Proof.
  intros Ht Heq. unfold success_rate.
  destruct (total_segment_count st =? 0) eqn:E; [apply Z.eqb_eq in E; lia|].
  unfold Qeq, Qmult. cbn [Qnum Qden]. rewrite Heq.
  rewrite Pos.mul_1_r, Z2Pos.id by exact Ht. lia.
Qed.

Lemma success_rate_partial (st : transfer) :
  0 <= received_segments st -> received_segments st < total_segment_count st ->
  (0 <= success_rate st)%Q /\ (success_rate st < 100)%Q.
Proof.
  intros Hr Hlt. unfold success_rate.
  destruct (total_segment_count st =? 0) eqn:E; [apply Z.eqb_eq in E; lia|].
  unfold Qle, Qlt, Qmult. cbn [Qnum Qden].
  rewrite Pos.mul_1_r, Z2Pos.id by lia. lia.
Qed.

(** C2 as stated fails when nothing was announced: the loop leaves by the
    idle timeout with [received_segments] equal to [total_segment_count],
    both 0, and the success rate is 0, not 100. *)
Lemma success_rate_zero_of_zero :
  let st := {| received_segments := 0; total_segment_count := 0;
               last_received_time := 0 |} in
  receive_loop [TimedOut 1500] (initial_transfer 0) = Exited IdleTimeout st
  /\ received_segments st = total_segment_count st
  /\ (success_rate st == 0)%Q
  /\ ~ (success_rate st == 100)%Q.
Proof.
  cbv zeta. repeat split; try reflexivity.
  intro H. discriminate H.
Qed.
(** ** The TCP transfer server *)

Lemma send_loop_trace (file_size_bytes total_bytes_sent : Z) (w : list tcp_action) :
  exists chunks,
    send_loop file_size_bytes total_bytes_sent w = (Ok tt, w ++ map Sendall chunks)
    /\ Z.of_nat (length (concat chunks)) = Z.max 0 (file_size_bytes - total_bytes_sent)
    /\ Forall (fun c => (1 <= length c <= 1024)%nat) chunks.
Proof.
  revert w. funelim (send_loop file_size_bytes total_bytes_sent); intro w.
  - set (chunk := filler x61 (Z.min chunk_size (file_size_bytes - total_bytes_sent))) in *.
    assert (Hlen : Z.of_nat (length chunk)
                   = Z.min 1024 (file_size_bytes - total_bytes_sent)).
    { subst chunk. unfold filler, chunk_size. rewrite repeat_length. lia. }
    destruct (H tt w (w ++ [Sendall chunk])) as (chunks & Hrun & Hsum & Hall).
    exists (chunk :: chunks). split; [|split].
    + unfold io_bind, sendall, write. rewrite Hrun.
      cbn [map]. rewrite <- app_assoc. reflexivity.
    + cbn [concat]. rewrite length_app, Nat2Z.inj_add, Hsum. lia.
    + constructor; [lia | exact Hall].
  - exists []. cbn. rewrite app_nil_r. repeat split; [lia | constructor].
Qed.

Lemma utf8_decode_ascii (bs : list byte) :
  forallb is_ascii bs = true -> utf8_decode bs = Ok (map byte_val bs).
Proof.
  induction bs as [|b bs IH]; intro H; [reflexivity|].
  cbn in H. apply andb_true_iff in H as [Hb Hbs].
  cbn [utf8_decode map]. unfold is_ascii in Hb. rewrite Hb, (IH Hbs). reflexivity.
Qed.

Lemma space_byte_ascii (b : byte) : space_byte b = true -> is_ascii b = true.
Proof.
  unfold space_byte, is_ascii, ascii_isspace, in_range. intro H.
  apply Z.ltb_lt. apply orb_true_iff in H as [H|H];
    apply andb_true_iff in H as [_ H]; apply Z.leb_le in H; lia.
Qed.

Lemma digit_byte_not_space (b : byte) : digit_byte b = true -> space_byte b = false.
Proof.
  unfold digit_byte, space_byte, ascii_isdigit, ascii_isspace, in_range. intro H.
  apply andb_true_iff in H as [H1 H2]. apply Z.leb_le in H1.
  apply orb_false_iff. split; apply andb_false_iff; right; apply Z.leb_gt; lia.
Qed.

Lemma digit_byte_ascii (b : byte) : digit_byte b = true -> is_ascii b = true.
Proof.
  unfold digit_byte, is_ascii, ascii_isdigit, in_range. intro H.
  apply andb_true_iff in H as [_ H]. apply Z.leb_le in H. apply Z.ltb_lt. lia.
Qed.

Lemma forallb_reversed {A : Type} (p : A -> bool) (l : list A) :
  forallb p l = true -> forallb p (rev l) = true.
Proof.
  rewrite !forallb_forall. intros H x Hx. apply H, in_rev, Hx.
Qed.

Section TextFacts.
Variable ucd : unicode_db.

Lemma isspace_ascii (b : byte) :
  is_ascii b = true -> isspace ucd (byte_val b) = space_byte b.
Proof.
  unfold is_ascii, isspace. intros ->. reflexivity.
Qed.

Lemma isdigit_char_ascii (b : byte) :
  is_ascii b = true -> isdigit_char ucd (byte_val b) = digit_byte b.
Proof.
  unfold is_ascii, isdigit_char. intros ->. reflexivity.
Qed.

Lemma lstrip_spaces (ws : list byte) (s : list Z) :
  forallb space_byte ws = true ->
  lstrip ucd (map byte_val ws ++ s) = lstrip ucd s.
Proof.
  induction ws as [|b ws IH]; intro H; [reflexivity|].
  cbn in H. apply andb_true_iff in H as [Hb Hws].
  cbn [map app lstrip].
  rewrite isspace_ascii, Hb by (apply space_byte_ascii, Hb).
  apply IH, Hws.
Qed.

Lemma lstrip_keeps (b : byte) (s : list Z) :
  is_ascii b = true -> space_byte b = false ->
  lstrip ucd (byte_val b :: s) = byte_val b :: s.
Proof.
  intros Ha Hs. cbn [lstrip]. rewrite isspace_ascii, Hs by exact Ha. reflexivity.
Qed.

(** The stripped content of whitespace, body, whitespace is the body. *)
Lemma strip_request (ws1 body ws2 : list byte) :
  forallb space_byte ws1 = true -> forallb space_byte ws2 = true ->
  forallb is_ascii body = true -> stripped body = true ->
  strip ucd (map byte_val (ws1 ++ body ++ ws2)) = map byte_val body.
Proof.
  intros H1 H2 Ha Hs. unfold strip.
  rewrite !map_app, lstrip_spaces by exact H1.
  destruct body as [|b r].
  - cbn [map app]. rewrite <- (app_nil_r (map byte_val ws2)).
    rewrite lstrip_spaces by exact H2. reflexivity.
  - cbn [stripped] in Hs. apply andb_true_iff in Hs as [Hhead Hlast].
    apply negb_true_iff in Hhead, Hlast.
    assert (Hab : is_ascii b = true).
    { cbn in Ha. apply andb_true_iff in Ha as [Ha _]. exact Ha. }
    cbn [map app]. rewrite lstrip_keeps by assumption.
    change (byte_val b :: map byte_val r ++ map byte_val ws2)
      with (map byte_val (b :: r) ++ map byte_val ws2).
    rewrite rev_app_distr, <- map_rev.
    rewrite lstrip_spaces by (apply forallb_reversed, H2).
    destruct (exists_last (l := b :: r) ltac:(discriminate)) as (init & l & E).
    revert Hlast Ha. rewrite E. intros Hlast Ha.
    rewrite last_last in Hlast.
    rewrite forallb_app in Ha. apply andb_true_iff in Ha as [_ Hal].
    cbn in Hal. apply andb_true_iff in Hal as [Hal _].
    rewrite map_app, rev_app_distr. cbn [map rev app].
    rewrite lstrip_keeps by assumption.
    rewrite <- rev_unit, rev_involutive.
    change (byte_val b :: map byte_val r) with (map byte_val (b :: r)).
    rewrite E, map_app. reflexivity.
Qed.

Lemma isdigit_ascii (body : list byte) :
  forallb is_ascii body = true ->
  isdigit ucd (map byte_val body)
  = match body with [] => false | _ => forallb digit_byte body end.
Proof.
  intro Ha. destruct body as [|b r]; [reflexivity|].
  unfold isdigit. change (map byte_val (b :: r)) with (byte_val b :: map byte_val r).
  cbv iota. change (byte_val b :: map byte_val r) with (map byte_val (b :: r)).
  generalize dependent (b :: r). clear. intros body Ha.
  induction body as [|x body IH]; [reflexivity|].
  cbn in Ha. apply andb_true_iff in Ha as [Hx Ha].
  cbn [map forallb]. rewrite isdigit_char_ascii, IH by assumption. reflexivity.
Qed.

Lemma int_from_digits (body : list byte) (acc : Z) :
  forallb digit_byte body = true ->
  int_from ucd acc (map byte_val body)
  = Ok (fold_left (fun a b => a * 10 + (byte_val b - 48)) body acc).
Proof.
  revert acc. induction body as [|b body IH]; intros acc H; [reflexivity|].
  cbn in H. apply andb_true_iff in H as [Hb H].
  cbn [map int_from fold_left]. unfold decimal_value.
  pose proof (digit_byte_ascii b Hb) as Ha. unfold is_ascii in Ha. rewrite Ha.
  unfold digit_byte in Hb. rewrite Hb. apply IH, H.
Qed.
End TextFacts.

Lemma in_last {A : Type} (l : list A) (d : A) : l <> [] -> In (last l d) l.
Proof.
  intro H. destruct (exists_last H) as (init & x & ->).
  rewrite last_last. apply in_or_app. right. left. reflexivity.
Qed.

Lemma digits_stripped (body : list byte) :
  forallb digit_byte body = true -> stripped body = true.
Proof.
  intro H. destruct body as [|b r]; [reflexivity|].
  cbn [stripped]. rewrite forallb_forall in H.
  rewrite !digit_byte_not_space; [reflexivity | |].
  - apply H, in_last. discriminate.
  - apply H. left. reflexivity.
Qed.

Lemma forallb_weaken {A : Type} (p q : A -> bool) (l : list A) :
  (forall x, p x = true -> q x = true) -> forallb p l = true -> forallb q l = true.
Proof.
  intros Hpq. rewrite !forallb_forall. intros H x Hx. apply Hpq, H, Hx.
Qed.

(** The handler on a request made of ASCII bytes: whitespace, a stripped
    body, whitespace. *)
Lemma handle_tcp_ascii_request (ucd : unicode_db) (ws1 body ws2 : list byte) :
  (length (ws1 ++ body ++ ws2) <= 1024)%nat ->
  forallb space_byte ws1 = true -> forallb space_byte ws2 = true ->
  forallb is_ascii body = true -> stripped body = true ->
  run (handle_tcp_connection ucd (ws1 ++ body ++ ws2))
  = if positive_decimal body
    then (Ok true, snd (send_loop (ascii_decimal body) 0 []) ++ [Close])
    else (Ok false, [Close]).
Proof.
  intros Hfit H1 H2 Ha Hs.
  assert (Hall : forallb is_ascii (ws1 ++ body ++ ws2) = true).
  { rewrite !forallb_app, Ha.
    rewrite (forallb_weaken _ _ ws1 space_byte_ascii H1).
    rewrite (forallb_weaken _ _ ws2 space_byte_ascii H2). reflexivity. }
  unfold run, handle_tcp_connection, try_finally, try_except, io_bind, lift, recv.
  rewrite firstn_all2 by exact Hfit.
  rewrite (utf8_decode_ascii _ Hall), (strip_request ucd) by assumption.
  rewrite isdigit_ascii by exact Ha.
  destruct body as [|b r]; [reflexivity|].
  cbn [map orb]. change (byte_val b :: map byte_val r) with (map byte_val (b :: r)).
  unfold positive_decimal.
  destruct (forallb digit_byte (b :: r)) eqn:Hd; cbn [negb andb]; [|reflexivity].
  unfold int. rewrite int_from_digits by exact Hd. fold (ascii_decimal (b :: r)).
  destruct (Z.leb_spec (ascii_decimal (b :: r)) 0) as [Hle|Hgt].
  - destruct (Z.ltb_spec 0 (ascii_decimal (b :: r))); [lia|reflexivity].
  - destruct (Z.ltb_spec 0 (ascii_decimal (b :: r))); [|lia].
    destruct (send_loop_trace (ascii_decimal (b :: r)) 0 []) as (chunks & Hrun & _).
    rewrite Hrun. reflexivity.
Qed.

Lemma decimal_digits_spec (n : Z) :
  0 <= n ->
  decimal_digits n <> []
  /\ forallb digit_byte (decimal_digits n) = true
  /\ ascii_decimal (decimal_digits n) = n.
Proof.
  funelim (decimal_digits n); intro Hn.
  - assert (V : byte_val (byte_of (48 + n)) = 48 + n).
    { rewrite byte_val_of. apply Z.mod_small. lia. }
    split; [discriminate|]. split.
    + cbn [forallb]. unfold digit_byte, ascii_isdigit, in_range. rewrite V.
      rewrite andb_true_r. apply andb_true_iff. split; apply Z.leb_le; lia.
    + unfold ascii_decimal. cbn [fold_left]. rewrite V. lia.
  - assert (Hq : 0 <= n / 10) by (apply Z.div_pos; lia).
    pose proof (Z.mod_pos_bound n 10 ltac:(lia)) as R.
    assert (V : byte_val (byte_of (48 + n mod 10)) = 48 + n mod 10).
    { rewrite byte_val_of. apply Z.mod_small. lia. }
    destruct (H Hq) as (_ & Hd & Hv).
    split; [|split].
    + intro E. apply app_eq_nil in E as [_ E]. discriminate.
    + rewrite forallb_app, Hd. cbn [forallb andb].
      unfold digit_byte, ascii_isdigit, in_range. rewrite V, andb_true_r.
      apply andb_true_iff. split; apply Z.leb_le; lia.
    + unfold ascii_decimal in *. rewrite fold_left_app. cbn [fold_left].
      rewrite Hv, V. pose proof (Z.div_mod n 10 ltac:(lia)). lia.
Qed.

(** C4: for every positive N whose request line "N\n" fits the 1024 bytes
    the handler reads, the handler writes chunks of at least 1 and at most
    1024 bytes that add up to exactly N bytes, then closes the connection
    and returns True. *)
Theorem tcp_server_sends_exactly_n (ucd : unicode_db) (N : Z) :
  0 < N ->
  (length (str_of_int N ++ [x0a]) <= 1024)%nat ->
  exists chunks,
    run (handle_tcp_connection ucd (str_of_int N ++ [x0a]))
    = (Ok true, map Sendall chunks ++ [Close])
    /\ Z.of_nat (length (concat chunks)) = N
    /\ Forall (fun c => (1 <= length c <= 1024)%nat) chunks.
Proof.
  intros HN Hfit. unfold str_of_int in *.
  destruct (Z.ltb_spec N 0) as [|_]; [lia|].
  destruct (decimal_digits_spec N ltac:(lia)) as (Hne & Hd & Hv).
  pose proof (handle_tcp_ascii_request ucd [] (decimal_digits N) [x0a]
                Hfit eq_refl eq_refl
                (forallb_weaken _ _ _ digit_byte_ascii Hd)
                (digits_stripped _ Hd)) as Hrun.
  cbn [app] in Hrun. rewrite Hrun.
  unfold positive_decimal. rewrite Hd, Hv.
  destruct (decimal_digits N) as [|d ds]; [congruence|].
  destruct (Z.ltb_spec 0 N); [|lia]. cbn [andb].
  destruct (send_loop_trace N 0 []) as (chunks & Hloop & Hsum & Hall).
  exists chunks. rewrite Hloop. cbn [snd app]. split; [reflexivity|].
  split; [lia | exact Hall].
Qed.

Lemma tcp_server_sends_exactly_n_witness :
  0 < 2500
  /\ (length (str_of_int 2500 ++ [x0a]) <= 1024)%nat
  /\ exists chunks,
       run (handle_tcp_connection arabic_indic_digits
              [x32; x35; x30; x30; x0a])
       = (Ok true, map Sendall chunks ++ [Close])
       /\ Z.of_nat (length (concat chunks)) = 2500
       /\ Forall (fun c => (1 <= length c <= 1024)%nat) chunks.
Proof.
  split; [lia|]. split; [vm_compute; lia|].
  refine (tcp_server_sends_exactly_n arabic_indic_digits 2500 eq_refl _).
  vm_compute. lia.
Defined.

(** C9, as the code has it: when the request fits the 1024 bytes the
    handler reads and is made of ASCII bytes, and its stripped content is
    empty, is not a run of decimal digits, or denotes no positive number
    (such as "0"), the handler sends nothing: it only closes its own
    connection and returns False. *)
Theorem tcp_server_rejects_ascii_request
    (ucd : unicode_db) (ws1 body ws2 : list byte) :
  (length (ws1 ++ body ++ ws2) <= 1024)%nat ->
  forallb space_byte ws1 = true -> forallb space_byte ws2 = true ->
  forallb is_ascii body = true -> stripped body = true ->
  positive_decimal body = false ->
  run (handle_tcp_connection ucd (ws1 ++ body ++ ws2)) = (Ok false, [Close]).
Proof.
  intros Hfit H1 H2 Ha Hs Hbad.
  rewrite handle_tcp_ascii_request by assumption. rewrite Hbad. reflexivity.
Qed.

Lemma tcp_server_rejects_ascii_request_witness :
  run (handle_tcp_connection arabic_indic_digits
         ([x20] ++ [x31; x32; x78] ++ [x0d; x0a])) = (Ok false, [Close])
  /\ run (handle_tcp_connection arabic_indic_digits
            ([] ++ [x30; x30] ++ [x0a])) = (Ok false, [Close])
  /\ run (handle_tcp_connection arabic_indic_digits
            ([x20; x09] ++ [] ++ [x0a])) = (Ok false, [Close]).
Proof.
  split; [|split].
  - apply (tcp_server_rejects_ascii_request arabic_indic_digits
             [x20] [x31; x32; x78] [x0d; x0a]); [cbn; lia | reflexivity ..].
  - apply (tcp_server_rejects_ascii_request arabic_indic_digits
             [] [x30; x30] [x0a]); [cbn; lia | reflexivity ..].
  - apply (tcp_server_rejects_ascii_request arabic_indic_digits
             [x20; x09] [] [x0a]); [cbn; lia | reflexivity ..].
Defined.

(** C9 as stated fails beyond ASCII: the request D9 A3 0A is the text
    U+0663, newline.  Its stripped content, the single ARABIC-INDIC DIGIT
    THREE, is no ASCII decimal integer, yet [isdigit] accepts it, [int]
    gives 3, and the handler sends 3 bytes. *)
Lemma tcp_server_serves_unicode_digit :
  utf8_decode [xd9; xa3; x0a] = Ok [0x663; 10]
  /\ strip arabic_indic_digits [0x663; 10] = [0x663]
  /\ ascii_isdigit 0x663 = false
  /\ run (handle_tcp_connection arabic_indic_digits [xd9; xa3; x0a])
     = (Ok true, [Sendall [x61; x61; x61]; Close]).
Proof.
  repeat split; reflexivity.
Qed.

(** ** The requests of the transfer clients *)

(** A UDP request that could be packed decodes, on the server, to the
    segment size it was built from. *)
Lemma udp_request_decodes (file_size udp_connections : Z) (request : datagram) :
  udp_request file_size udp_connections = Ok request ->
  unpack_IBQ request = Ok (MAGIC_COOKIE, REQUEST_TYPE, file_size / udp_connections).
Proof.
  unfold udp_request, floordiv. destruct (udp_connections =? 0); [discriminate|].
  cbn [bind]. unfold pack_IBQ.
  change (pack_field 4 MAGIC_COOKIE) with (Ok cookie_bytes).
  change (pack_field 1 REQUEST_TYPE) with (Ok [x03]).
  cbn [bind].
  destruct (pack_field 8 (file_size / udp_connections)) as [f|e] eqn:E; [|discriminate].
  cbn [bind]. intro H. injection H as <-.
  apply pack_field_ok in E as (_ & Hv & Hl).
  destruct f as [|c0 [|c1 [|c2 [|c3 [|c4 [|c5 [|c6 [|c7 [|]]]]]]]]];
    try discriminate Hl.
  unfold unpack_IBQ. cbn -[be_value]. rewrite Hv. reflexivity.
Qed.



(** ** Further properties: the UDP transfer *)

Lemma loop_body_payload (now : Z) (data : datagram) (st : transfer) :
  is_payload data = true ->
  loop_body (Received now data) st
  = ({| received_segments := received_segments st + 1;
        total_segment_count := size_field data;
        last_received_time := now |},
     if received_segments st + 1 =? size_field data
     then Break Completed else Continue).
Proof.
  unfold is_payload. intro H. apply andb_true_iff in H as [Hlen Hhead].
  apply Nat.leb_le in Hlen. apply bytes_eqb_eq in Hhead.
  do 21 (destruct data as [|? data]; [cbn in Hlen; lia|]).
  cbn in Hhead. injection Hhead as -> -> -> -> ->.
  unfold size_field.
  cbn -[be_value Z.eqb].
  change (be_value [xab; xcd; xdc; xba] =? MAGIC_COOKIE) with true.
  change (be_value [x04] =? PAYLOAD_TYPE) with true.
  cbn -[be_value Z.eqb].
  destruct (_ =? _); reflexivity.
Qed.

Lemma receive_announced (total : Z) (evs post : list recv_event) (st : transfer) :
  forallb (announces total) evs = true ->
  received_segments st + Z.of_nat (length evs) < total ->
  receive_loop (evs ++ post) st
  = receive_loop post
      {| received_segments := received_segments st + Z.of_nat (length evs);
         total_segment_count :=
           match evs with [] => total_segment_count st | _ => total end;
         last_received_time := last_arrival (last_received_time st) evs |}.
Proof.
  revert st. induction evs as [|ev evs IH]; intros st Hall Hlt.
  - cbn. rewrite Z.add_0_r. destruct st; reflexivity.
  - cbn [forallb] in Hall. apply andb_true_iff in Hall as [Hev Hall].
    destruct ev as [now data|now]; [|discriminate].
    cbn [announces] in Hev. apply andb_true_iff in Hev as [Hp Hsz].
    apply Z.eqb_eq in Hsz.
    cbn [app receive_loop]. rewrite loop_body_payload by exact Hp.
    rewrite Hsz.
    cbn [length] in Hlt. rewrite Nat2Z.inj_succ in Hlt.
    destruct (Z.eqb_spec (received_segments st + 1) total) as [E|_]; [lia|].
    rewrite IH by (first [exact Hall | cbn [received_segments]; lia]).
    cbn [received_segments total_segment_count last_received_time length].
    rewrite Nat2Z.inj_succ.
    replace (received_segments st + 1 + Z.of_nat (length evs))
      with (received_segments st + Z.succ (Z.of_nat (length evs))) by lia.
    unfold last_arrival. cbn [fold_left].
    destruct evs; reflexivity.
Qed.

Lemma chunks_of_range (file_size : Z) :
  0 <= file_size < 2 ^ 64 -> 0 <= chunks_of file_size < 2 ^ 64.
Proof.
  intro H. unfold chunks_of, chunk_size. split.
  - apply Z.div_pos; lia.
  - apply Z.div_lt_upper_bound; lia.
Qed.

Lemma chunks_of_pos (file_size : Z) : 0 < file_size -> 0 < chunks_of file_size.
Proof.
  intro H. unfold chunks_of, chunk_size.
  apply Z.div_str_pos. lia.
Qed.

Lemma payload_datagram_valid (file_size chunks k : Z) :
  0 <= chunks < 2 ^ 64 -> 0 <= k < 2 ^ 64 ->
  is_payload (payload_datagram file_size chunks k) = true
  /\ size_field (payload_datagram file_size chunks k) = chunks.
Proof.
  intros Hc Hk.
  pose proof (unpack_payload_header chunks k Hc Hk) as U.
  unfold payload_datagram.
  pose proof (be_bytes_length 8 chunks) as Lc.
  pose proof (be_bytes_length 8 k) as Lk.
  destruct (be_bytes 8 chunks) as [|c0 [|c1 [|c2 [|c3 [|c4 [|c5 [|c6 [|c7 [|]]]]]]]]];
    try discriminate Lc.
  destruct (be_bytes 8 k) as [|k0 [|k1 [|k2 [|k3 [|k4 [|k5 [|k6 [|k7 [|]]]]]]]]];
    try discriminate Lk.
  split.
  - reflexivity.
  - unfold unpack_IBQQ in U. cbn -[be_value] in U. injection U as U _.
    unfold size_field. cbn -[be_value]. exact U.
Qed.

Lemma from_server_announces (file_size : Z) (ev : recv_event) :
  0 <= file_size < 2 ^ 64 ->
  from_server file_size ev = true -> announces (chunks_of file_size) ev = true.
Proof.
  intros Hf H. destruct ev as [now data|now]; [|discriminate].
  cbn [from_server] in H. apply existsb_exists in H as (k & Hin & Heq).
  apply in_range_iff in Hin. apply bytes_eqb_eq in Heq. subst data.
  pose proof (chunks_of_range file_size Hf) as Hc.
  destruct (payload_datagram_valid file_size (chunks_of file_size) k Hc ltac:(lia))
    as [Hp Hs].
  cbn [announces]. rewrite Hp, Hs, Z.eqb_refl. reflexivity.
Qed.

Lemma forallb_from_server (file_size : Z) (evs : list recv_event) :
  0 <= file_size < 2 ^ 64 ->
  forallb (from_server file_size) evs = true ->
  forallb (announces (chunks_of file_size)) evs = true.
Proof.
  intro Hf. apply forallb_weaken. intro ev. apply from_server_announces, Hf.
Qed.

Lemma udp_transfer_completes_aux
    (file_size start : Z) (evs post : list recv_event) :
  0 < file_size < 2 ^ 64 ->
  forallb (from_server file_size) evs = true ->
  Z.of_nat (length evs) = chunks_of file_size ->
  let st := {| received_segments := chunks_of file_size;
               total_segment_count := chunks_of file_size;
               last_received_time := last_arrival start evs |} in
  receive_loop (evs ++ post) (initial_transfer start) = Exited Completed st
  /\ (success_rate st == 100)%Q.
Proof.
  intros Hf Hall Hlen st.
  pose proof (chunks_of_pos file_size ltac:(lia)) as Hpos.
  apply forallb_from_server in Hall; [|lia].
  destruct evs as [|e0 evs0] using rev_ind; [cbn in Hlen; lia|]. clear IHevs0.
  rename evs0 into init, e0 into ev.
  rewrite forallb_app in Hall. apply andb_true_iff in Hall as [Hinit Hev].
  cbn [forallb] in Hev. rewrite andb_true_r in Hev.
  rewrite length_app in Hlen. cbn [length] in Hlen.
  split.
  - rewrite <- app_assoc. cbn [app].
    rewrite (receive_announced (chunks_of file_size))
      by (first [exact Hinit | cbn [initial_transfer received_segments]; lia]).
    destruct ev as [now data|now]; [|discriminate].
    cbn [announces] in Hev. apply andb_true_iff in Hev as [Hp Hs].
    apply Z.eqb_eq in Hs.
    cbn [receive_loop]. rewrite loop_body_payload by exact Hp. rewrite Hs.
    cbn [initial_transfer received_segments].
    destruct (Z.eqb_spec (0 + Z.of_nat (length init) + 1) (chunks_of file_size));
      [|lia].
    subst st. f_equal. f_equal; [lia|].
    unfold last_arrival. rewrite fold_left_app. reflexivity.
  - apply success_rate_full; subst st; cbn; [exact Hpos | reflexivity].
Qed.

(** Once as many of the server's datagrams have arrived as the server
    announced, in any order and with repeats counted like first arrivals,
    the loop leaves by completion and the success rate is 100; what
    arrives later is not read. *)
Theorem udp_transfer_completes
    (file_size start : Z) (evs post : list recv_event) :
  0 < file_size < 2 ^ 64 ->
  forallb (from_server file_size) evs = true ->
  Z.of_nat (length evs) = chunks_of file_size ->
  let st := {| received_segments := chunks_of file_size;
               total_segment_count := chunks_of file_size;
               last_received_time := last_arrival start evs |} in
  receive_loop (evs ++ post) (initial_transfer start) = Exited Completed st
  /\ (success_rate st == 100)%Q.
Proof.
  exact (udp_transfer_completes_aux file_size start evs post).
Qed.

Lemma udp_transfer_completes_witness :
  let evs := [Received 7 (payload_datagram 2500 3 2);
              Received 9 (payload_datagram 2500 3 0);
              Received 12 (payload_datagram 2500 3 2)] in
  let st := {| received_segments := 3; total_segment_count := 3;
               last_received_time := 12 |} in
  receive_loop (evs ++ [Received 15 (payload_datagram 2500 3 1)]) (initial_transfer 0)
  = Exited Completed st
  /\ (success_rate st == 100)%Q.
Proof.
  intros evs st.
  apply (udp_transfer_completes 2500 0 evs
           [Received 15 (payload_datagram 2500 3 1)]).
  - lia.
  - reflexivity.
  - reflexivity.
Defined.

(** When fewer of the server's datagrams arrive than it announced and the
    next timeout finds the clock more than one second past the latest
    arrival, the loop leaves by the idle timeout having counted exactly
    the arrivals, with the server's count as the announced total (0 if
    nothing arrived), and the success rate lies in [0, 100). *)
Theorem udp_transfer_reports_loss
    (file_size start now : Z) (evs post : list recv_event) :
  0 <= file_size < 2 ^ 64 ->
  forallb (from_server file_size) evs = true ->
  Z.of_nat (length evs) < chunks_of file_size ->
  1000 < now - last_arrival start evs ->
  exists st,
    receive_loop (evs ++ TimedOut now :: post) (initial_transfer start)
    = Exited IdleTimeout st
    /\ received_segments st = Z.of_nat (length evs)
    /\ total_segment_count st
       = match evs with [] => 0 | _ => chunks_of file_size end
    /\ (0 <= success_rate st)%Q /\ (success_rate st < 100)%Q.
Proof.
  intros Hf Hall Hlen Hidle.
  apply forallb_from_server in Hall; [|exact Hf].
  eexists. split; [|split; [|split]].
  - rewrite (receive_announced (chunks_of file_size))
      by (first [exact Hall | cbn [initial_transfer received_segments]; lia]).
    cbn [receive_loop loop_body last_received_time initial_transfer].
    destruct (Z.gtb_spec (now - last_arrival start evs) 1000) as [_|]; [|lia].
    reflexivity.
  - cbn. reflexivity.
  - cbn. reflexivity.
  - destruct evs as [|ev evs].
    + unfold success_rate. cbn. split; [discriminate | reflexivity].
    + apply success_rate_partial; cbn [received_segments total_segment_count
                                        initial_transfer]; lia.
Qed.

Lemma udp_transfer_reports_loss_witness :
  let evs := [Received 7 (payload_datagram 2500 3 0);
              Received 9 (payload_datagram 2500 3 2)] in
  exists st,
    receive_loop (evs ++ [TimedOut 1010]) (initial_transfer 0) = Exited IdleTimeout st
    /\ received_segments st = 2
    /\ total_segment_count st = 3
    /\ (0 <= success_rate st)%Q /\ (success_rate st < 100)%Q.
Proof.
  intro evs.
  apply (udp_transfer_reports_loss 2500 0 1010 evs []).
  - lia.
  - reflexivity.
  - cbn. lia.
  - cbn. lia.
Defined.

(** While the loop goes on, [received_segments] is the number of datagrams
    read so far, whatever they hold. *)
Theorem received_segments_counts_arrivals
    (incoming : list recv_event) (start : Z) (st : transfer) :
  receive_loop incoming (initial_transfer start) = Receiving st ->
  received_segments st = Z.of_nat (length (filter is_arrival incoming)).
Proof.
  assert (G : forall st0,
             receive_loop incoming st0 = Receiving st ->
             received_segments st
             = received_segments st0 + Z.of_nat (length (filter is_arrival incoming))).
  { induction incoming as [|ev rest IH]; intros st0 Hrun.
    - cbn in Hrun. injection Hrun as <-. cbn. lia.
    - cbn [receive_loop] in Hrun.
      destruct ev as [now data|now]; cbn [filter is_arrival length].
      + assert (Hr : received_segments (fst (loop_body (Received now data) st0))
                     = received_segments st0 + 1).
        { cbn [loop_body]. destruct (length data <? 21)%nat; [reflexivity|].
          destruct (unpack_IBQQ (firstn 21 data)) as [[[[m t] tot] i]|e];
            [|reflexivity].
          destruct (negb _ || negb _); [reflexivity|].
          destruct (_ =? _); reflexivity. }
        destruct (loop_body (Received now data) st0) as [st' c].
        cbn [fst] in Hr. destruct c; try discriminate.
        rewrite (IH st' Hrun), Hr, Nat2Z.inj_succ. lia.
      + cbn [loop_body] in Hrun.
        destruct (now - last_received_time st0 >? 1000); [discriminate|].
        apply IH, Hrun. }
  intro Hrun. rewrite (G _ Hrun). reflexivity.
Qed.

Lemma received_segments_counts_arrivals_witness :
  let incoming := [Received 3 [x68; x69]; TimedOut 500;
                   Received 600 (payload_datagram 2500 3 1);
                   Received 700 [xde; xad; xbe; xef; x04]] in
  let st := {| received_segments := 3; total_segment_count := 3;
               last_received_time := 700 |} in
  receive_loop incoming (initial_transfer 0) = Receiving st
  /\ received_segments st = Z.of_nat (length (filter is_arrival incoming)).
Proof.
  intros incoming st. split; [reflexivity|].
  apply (received_segments_counts_arrivals incoming 0 st). reflexivity.
Defined.

(** ** Further properties: the UDP transfer server *)

Lemma is_request_spec (data : datagram) :
  match unpack_IBQ data with
  | Ok (magic_cookie, message_type, file_size) =>
      (magic_cookie =? MAGIC_COOKIE) && (message_type =? REQUEST_TYPE) = is_request data
      /\ file_size = size_field data
      /\ length data = 13%nat
  | Raise _ => is_request data = false /\ length data <> 13%nat
  end.
Proof.
  unfold unpack_IBQ, is_request.
  destruct (length data =? 13)%nat eqn:Hlen.
  - apply Nat.eqb_eq in Hlen. split; [|split; [reflexivity | exact Hlen]].
    do 13 (destruct data as [|? data]; [discriminate Hlen|]).
    destruct data; [|discriminate Hlen].
    cbn [andb slice skipn firstn cookie_bytes app].
    destruct (bytes_eqb [b; b0; b1; b2; b3] [xab; xcd; xdc; xba; x03]) eqn:E.
    + apply bytes_eqb_eq in E. injection E as -> -> -> -> ->. reflexivity.
    + apply andb_false_iff.
      destruct (be_value [b; b0; b1; b2] =? MAGIC_COOKIE) eqn:E1; [right|now left].
      destruct (be_value [b3] =? REQUEST_TYPE) eqn:E2; [|reflexivity].
      apply Z.eqb_eq in E1, E2.
      apply (be_value_inj _ 4) in E1; [|reflexivity].
      apply (be_value_inj _ 1) in E2; [|reflexivity].
      cbn in E1, E2. injection E1 as -> -> -> ->. injection E2 as ->.
      cbn in E. discriminate.
  - apply Nat.eqb_neq in Hlen. split; [reflexivity | exact Hlen].
Qed.

Lemma is_request_unpack (data : datagram) :
  is_request data = true ->
  unpack_IBQ data = Ok (MAGIC_COOKIE, REQUEST_TYPE, size_field data).
Proof.
  intro H. pose proof (is_request_spec data) as S.
  destruct (unpack_IBQ data) as [[[m t] f]|e].
  - destruct S as (S & -> & _). rewrite H in S.
    apply andb_true_iff in S as [S1 S2].
    apply Z.eqb_eq in S1, S2. congruence.
  - destruct S as [S _]. congruence.
Qed.

(** Whatever arrives that is not a 13-byte Request with the right cookie
    and type, the handler sends nothing, raises nothing and returns
    False. *)
Theorem udp_server_ignores_non_request (data : datagram) (client_address : address) :
  is_request data = false ->
  run (handle_udp_connection data client_address) = (Ok false, []).
Proof.
  intro H. pose proof (is_request_spec data) as S.
  unfold run, handle_udp_connection, try_except, io_bind, lift.
  destruct (length data =? 13)%nat eqn:Hlen; [|reflexivity].
  cbn [negb].
  destruct (unpack_IBQ data) as [[[m t] f]|e].
  - destruct S as (S & _ & _). rewrite H in S.
    apply andb_false_iff in S as [S|S]; rewrite S; cbn [negb orb];
      [reflexivity | rewrite orb_true_r; reflexivity].
  - destruct S as [_ S]. apply Nat.eqb_eq in Hlen. contradiction.
Qed.

Lemma udp_server_ignores_non_request_witness :
  run (handle_udp_connection
         [xab; xcd; xdc; xba; x04; x00; x00; x00; x00; x00; x00; x09; xc4]
         ("10.0.0.7"%string, 40000)) = (Ok false, [])
  /\ run (handle_udp_connection
            [xab; xcd; xdc; xba; x03; x00; x00; x00; x00; x00; x00; x09; xc4; x00]
            ("10.0.0.7"%string, 40000)) = (Ok false, []).
Proof.
  split.
  - apply udp_server_ignores_non_request. reflexivity.
  - apply udp_server_ignores_non_request. reflexivity.
Defined.

Lemma payload_datagram_length (file_size chunks k : Z) :
  length (payload_datagram file_size chunks k)
  = (21 + Z.to_nat (Z.min chunk_size (file_size - k * chunk_size)))%nat.
Proof.
  unfold payload_datagram, filler.
  rewrite !length_app, !be_bytes_length, repeat_length. reflexivity.
Qed.

Lemma filler_sum (file_size : Z) (n : nat) :
  0 <= file_size ->
  1024 * (Z.of_nat n - 1) < file_size ->
  Z.of_nat (list_sum (map (fun k => Z.to_nat (Z.min 1024 (file_size - k * 1024)))
                          (map Z.of_nat (seq 0 n))))
  = Z.min file_size (1024 * Z.of_nat n).
Proof.
  intro H0. induction n as [|n IH]; intro H.
  - cbn. lia.
  - rewrite seq_S, !map_app, list_sum_app, Nat2Z.inj_add, IH by lia.
    cbn [map]. unfold list_sum. cbn [fold_right]. lia.
Qed.

(** For a Request of [file_size] bytes every datagram sent goes to the
    requester, is a valid Payload of between 22 and 1045 bytes, and the
    filler bytes of all of them add up to exactly [file_size]. *)
Theorem udp_server_sends_file_size_bytes (data : datagram) (client_address : address) :
  is_request data = true ->
  exists sent,
    run (handle_udp_connection data client_address) = (Ok true, sent)
    /\ Forall (fun m => snd m = client_address
                        /\ is_payload (fst m) = true
                        /\ (22 <= length (fst m) <= 1045)%nat) sent
    /\ Z.of_nat (filler_bytes sent) = size_field data.
Proof.
  intro H. apply is_request_unpack in H.
  destruct (handle_udp_request data client_address _ H) as [Hsize Hrun].
  cbv zeta in Hrun. fold (chunks_of (size_field data)) in Hrun.
  set (file_size := size_field data) in *.
  pose proof (chunks_of_range file_size Hsize) as Hc.
  eexists. split; [exact Hrun|]. split.
  - apply Forall_forall. intros m Hm. apply in_map_iff in Hm as (k & <- & Hk).
    apply in_range_iff in Hk. cbn [fst snd].
    split; [reflexivity|]. split.
    + apply payload_datagram_valid; lia.
    + rewrite payload_datagram_length. unfold chunk_size.
      assert (1024 * k < file_size).
      { unfold chunks_of, chunk_size in Hk.
        assert (k + 1 <= (file_size + 1024 - 1) / 1024) by lia.
        pose proof (Z.mul_div_le (file_size + 1024 - 1) 1024 ltac:(lia)). lia. }
      lia.
  - unfold filler_bytes. rewrite map_map. cbn [fst].
    erewrite map_ext by (intro k; rewrite payload_datagram_length;
                         rewrite Nat.add_comm, Nat.add_sub; reflexivity).
    unfold range, chunk_size. rewrite filler_sum.
    + unfold chunks_of, chunk_size in *.
      rewrite Z2Nat.id by lia.
      pose proof (Z.mul_succ_div_gt (file_size + 1024 - 1) 1024 ltac:(lia)). lia.
    + lia.
    + unfold chunks_of, chunk_size in *. rewrite Z2Nat.id by lia.
      pose proof (Z.mul_div_le (file_size + 1024 - 1) 1024 ltac:(lia)). lia.
Qed.

Lemma udp_server_sends_file_size_bytes_witness :
  exists sent,
    run (handle_udp_connection
           [xab; xcd; xdc; xba; x03; x00; x00; x00; x00; x00; x00; x09; xc4]
           ("10.0.0.7"%string, 40000)) = (Ok true, sent)
    /\ Forall (fun m => snd m = ("10.0.0.7"%string, 40000)
                        /\ is_payload (fst m) = true
                        /\ (22 <= length (fst m) <= 1045)%nat) sent
    /\ Z.of_nat (filler_bytes sent) = 2500.
Proof.
  apply (udp_server_sends_file_size_bytes
           [xab; xcd; xdc; xba; x03; x00; x00; x00; x00; x00; x00; x09; xc4]
           ("10.0.0.7"%string, 40000)).
  reflexivity.
Defined.

(** ** Further properties: a UDP transfer from end to end *)

Lemma udp_request_ok (file_size udp_connections : Z) :
  0 < udp_connections -> 0 <= file_size -> file_size / udp_connections < 2 ^ 64 ->
  exists request,
    udp_request file_size udp_connections = Ok request
    /\ is_request request = true
    /\ size_field request = file_size / udp_connections.
Proof.
  intros Hc Hf Hlt.
  assert (Hq : 0 <= file_size / udp_connections) by (apply Z.div_pos; lia).
  assert (E : udp_request file_size udp_connections
              = Ok (cookie_bytes ++ [x03] ++ be_bytes 8 (file_size / udp_connections))).
  { unfold udp_request, floordiv.
    destruct (Z.eqb_spec udp_connections 0); [lia|]. cbn [bind].
    unfold pack_IBQ. rewrite (pack_field_in_range 8) by (cbn; lia). reflexivity. }
  eexists. split; [exact E|].
  pose proof (udp_request_decodes _ _ _ E) as U.
  pose proof (is_request_spec
                (cookie_bytes ++ [x03] ++ be_bytes 8 (file_size / udp_connections))) as S.
  rewrite U in S. destruct S as (S1 & S2 & _). split.
  - rewrite <- S1. reflexivity.
  - symmetry. exact S2.
Qed.

(** A request for at least one byte per connection, answered by the
    server and delivered whole and in order: the client's loop leaves by
    completion with every datagram counted and a success rate of 100. *)
Theorem udp_lossless_round_trip
    (file_size udp_connections start : Z) (client_address : address)
    (times : list Z) :
  0 < udp_connections <= file_size ->
  file_size / udp_connections < 2 ^ 64 ->
  exists request sent st,
    udp_request file_size udp_connections = Ok request
    /\ run (handle_udp_connection request client_address) = (Ok true, sent)
    /\ Z.of_nat (length sent) = chunks_of (file_size / udp_connections)
    /\ (length times = length sent ->
        receive_loop (deliver times sent) (initial_transfer start)
        = Exited Completed st
        /\ received_segments st = Z.of_nat (length sent)
        /\ (success_rate st == 100)%Q).
Proof.
  intros Hc Hlt.
  destruct (udp_request_ok file_size udp_connections) as (request & Hreq & Hisreq & Hsz);
    [lia | lia | exact Hlt |].
  set (seg := file_size / udp_connections) in *.
  assert (Hseg : 0 < seg).
  { subst seg. apply Z.div_str_pos. lia. }
  apply is_request_unpack in Hisreq. rewrite Hsz in Hisreq.
  destruct (handle_udp_request request client_address seg Hisreq) as [_ Hrun].
  cbv zeta in Hrun. fold (chunks_of seg) in Hrun.
  pose proof (chunks_of_range seg ltac:(lia)) as Hch.
  set (sent := map (fun k => (payload_datagram seg (chunks_of seg) k, client_address))
                   (range (chunks_of seg))) in *.
  assert (Hlen : Z.of_nat (length sent) = chunks_of seg).
  { subst sent. rewrite length_map, range_length. lia. }
  exists request, sent,
    {| received_segments := chunks_of seg; total_segment_count := chunks_of seg;
       last_received_time := last_arrival start (deliver times sent) |}.
  split; [exact Hreq|]. split; [exact Hrun|]. split; [exact Hlen|].
  intro Htimes.
  destruct (udp_transfer_completes_aux seg start (deliver times sent) []) as [R1 R2].
  - lia.
  - apply forallb_forall. intros ev Hev. unfold deliver in Hev.
    apply in_map_iff in Hev as ([t [d a]] & <- & Hin).
    apply in_combine_r in Hin. subst sent.
    apply in_map_iff in Hin as (k & E & Hk). injection E as <- _.
    cbn [from_server fst snd]. apply existsb_exists. exists k. split; [exact Hk|].
    apply bytes_eqb_eq. reflexivity.
  - unfold deliver. rewrite length_map, length_combine, Htimes, Nat.min_id. exact Hlen.
  - rewrite app_nil_r in R1. split; [exact R1|]. split; [cbn; lia | exact R2].
Qed.

Lemma udp_lossless_round_trip_witness :
  exists request sent st,
    udp_request 5000 2 = Ok request
    /\ run (handle_udp_connection request ("10.0.0.7"%string, 40000)) = (Ok true, sent)
    /\ Z.of_nat (length sent) = chunks_of (5000 / 2)
    /\ (length [5; 6; 8] = length sent ->
        receive_loop (deliver [5; 6; 8] sent) (initial_transfer 0)
        = Exited Completed st
        /\ received_segments st = Z.of_nat (length sent)
        /\ (success_rate st == 100)%Q).
Proof.
  apply (udp_lossless_round_trip 5000 2 0 ("10.0.0.7"%string, 40000) [5; 6; 8]).
  - lia.
  - reflexivity.
Defined.

(** With more UDP connections than bytes every connection asks for 0
    bytes: the server accepts the Request and sends nothing, and the
    client, hearing nothing, leaves at the first timeout that finds more
    than a second gone and reports a success rate of 0. *)
Theorem udp_zero_segment_round_trip
    (file_size udp_connections start now : Z) (client_address : address)
    (post : list recv_event) :
  0 <= file_size < udp_connections ->
  1000 < now - start ->
  exists request,
    udp_request file_size udp_connections = Ok request
    /\ run (handle_udp_connection request client_address) = (Ok true, [])
    /\ receive_loop (TimedOut now :: post) (initial_transfer start)
       = Exited IdleTimeout (initial_transfer start)
    /\ (success_rate (initial_transfer start) == 0)%Q.
Proof.
  intros Hf Hidle.
  assert (Hseg : file_size / udp_connections = 0) by (apply Z.div_small; lia).
  destruct (udp_request_ok file_size udp_connections) as (request & Hreq & Hisreq & Hsz);
    [lia | lia | rewrite Hseg; reflexivity |].
  rewrite Hseg in Hsz.
  apply is_request_unpack in Hisreq. rewrite Hsz in Hisreq.
  destruct (handle_udp_request request client_address 0 Hisreq) as [_ Hrun].
  exists request. split; [exact Hreq|]. split; [exact Hrun|]. split.
  - cbn [receive_loop loop_body initial_transfer last_received_time].
    destruct (Z.gtb_spec (now - start) 1000); [reflexivity | lia].
  - reflexivity.
Qed.

Lemma udp_zero_segment_round_trip_witness :
  exists request,
    udp_request 1 2 = Ok request
    /\ run (handle_udp_connection request ("10.0.0.7"%string, 40000)) = (Ok true, [])
    /\ receive_loop [TimedOut 1001] (initial_transfer 0)
       = Exited IdleTimeout (initial_transfer 0)
    /\ (success_rate (initial_transfer 0) == 0)%Q.
Proof.
  apply (udp_zero_segment_round_trip 1 2 0 1001 ("10.0.0.7"%string, 40000) []).
  - lia.
  - lia.
Defined.

(** ** Further properties: the TCP transfer *)

(** Whatever bytes arrive and whatever the character database holds, the
    handler raises nothing and closes its socket exactly once, as its last
    action.  Before that it has either sent nothing and returns False, or
    sent at least one byte in chunks of 1 to 1024 bytes and returns
    True. *)
Theorem tcp_server_always_closes (ucd : unicode_db) (incoming : list byte) :
  exists result chunks,
    run (handle_tcp_connection ucd incoming) = (Ok result, map Sendall chunks ++ [Close])
    /\ Forall (fun c => (1 <= length c <= 1024)%nat) chunks
    /\ (if result then (0 < length (concat chunks))%nat else chunks = []).
Proof.
  unfold run, handle_tcp_connection, try_finally, try_except, io_bind, lift.
  destruct (utf8_decode (recv 1024 incoming)) as [text|e].
  2:{ exists false, []. repeat split; constructor. }
  cbv zeta.
  destruct (match strip ucd text with [] => true | _ => false end
            || negb (isdigit ucd (strip ucd text))).
  { exists false, []. repeat split; constructor. }
  destruct (int ucd (strip ucd text)) as [n|e].
  2:{ exists false, []. repeat split; constructor. }
  destruct (Z.leb_spec n 0) as [Hle|Hgt].
  { exists false, []. repeat split; constructor. }
  destruct (send_loop_trace n 0 []) as (chunks & Hrun & Hsum & Hall).
  rewrite Hrun. exists true, chunks. cbn [app]. repeat split.
  - exact Hall.
  - lia.
Qed.

Lemma tcp_receive_loop_chunks
    (segment_size : Z) (chunks post : list (list byte)) (bytes_receive : Z) :
  forallb nonempty chunks = true ->
  bytes_receive + Z.of_nat (length (concat chunks)) <= segment_size ->
  tcp_receive_loop segment_size (chunks ++ post) bytes_receive
  = tcp_receive_loop segment_size post
      (bytes_receive + Z.of_nat (length (concat chunks))).
Proof.
  revert bytes_receive. induction chunks as [|c chunks IH]; intros b Hne Hle.
  - cbn. rewrite Z.add_0_r. reflexivity.
  - cbn [forallb] in Hne. apply andb_true_iff in Hne as [Hc Hne].
    cbn [concat] in *. rewrite length_app, Nat2Z.inj_add in *.
    destruct c as [|x c]; [discriminate|].
    cbn [app tcp_receive_loop].
    destruct (Z.ltb_spec b segment_size) as [_|Hge];
      [|cbn [length] in Hle; lia].
    rewrite IH by (first [exact Hne | lia]).
    f_equal. lia.
Qed.

(** However the stream is cut into non-empty reads, once the reads add up
    to exactly [segment_size] bytes the loop ends with that count, without
    a further read. *)
Theorem tcp_client_receives_segment
    (segment_size : Z) (chunks post : list (list byte)) :
  forallb nonempty chunks = true ->
  Z.of_nat (length (concat chunks)) = segment_size ->
  tcp_receive_loop segment_size (chunks ++ post) 0
  = TcpExited SegmentReceived segment_size post.
Proof.
  intros Hne Hsum.
  rewrite tcp_receive_loop_chunks by (first [exact Hne | lia]).
  rewrite Z.add_0_l, Hsum.
  destruct post; cbn [tcp_receive_loop]; rewrite Z.ltb_irrefl; reflexivity.
Qed.

Lemma tcp_client_receives_segment_witness :
  tcp_receive_loop 5 ([[x61; x61]; [x61]; [x61; x61]] ++ [[]]) 0
  = TcpExited SegmentReceived 5 [[]].
Proof.
  apply (tcp_client_receives_segment 5 [[x61; x61]; [x61]; [x61; x61]] [[]]).
  - reflexivity.
  - reflexivity.
Defined.

(** When the peer closes after fewer bytes than asked for, the loop ends
    at the empty read with the bytes received so far. *)
Theorem tcp_client_stops_at_close
    (segment_size : Z) (chunks post : list (list byte)) :
  forallb nonempty chunks = true ->
  Z.of_nat (length (concat chunks)) < segment_size ->
  tcp_receive_loop segment_size (chunks ++ [] :: post) 0
  = TcpExited PeerClosed (Z.of_nat (length (concat chunks))) post.
Proof.
  intros Hne Hsum.
  rewrite tcp_receive_loop_chunks by (first [exact Hne | lia]).
  rewrite Z.add_0_l. cbn [tcp_receive_loop].
  destruct (Z.ltb_spec (Z.of_nat (length (concat chunks))) segment_size); [|lia].
  reflexivity.
Qed.

Lemma tcp_client_stops_at_close_witness :
  tcp_receive_loop 5 ([[x61; x61]; [x61]] ++ [] :: [[x61; x61]]) 0
  = TcpExited PeerClosed 3 [[x61; x61]].
Proof.
  apply (tcp_client_stops_at_close 5 [[x61; x61]; [x61]] [[x61; x61]]).
  - reflexivity.
  - cbn. lia.
Defined.

(** A read may carry the count past [segment_size]: at the exit the count
    is below [segment_size] plus the size of the largest read. *)
Theorem tcp_client_overshoot_bounded
    (segment_size bound : Z) (reads unread : list (list byte)) (received : Z) :
  0 <= segment_size ->
  Forall (fun c => Z.of_nat (length c) <= bound) reads ->
  tcp_receive_loop segment_size reads 0 = TcpExited SegmentReceived received unread ->
  segment_size <= received /\ (0 < segment_size -> received < segment_size + bound).
Proof.
  intros Hseg Hall.
  assert (G : forall b, 0 <= b -> (0 < b -> b < segment_size + bound) ->
              tcp_receive_loop segment_size reads b
              = TcpExited SegmentReceived received unread ->
              segment_size <= received
              /\ (0 < received -> received < segment_size + bound)).
  { induction Hall as [|c reads Hc Hall IH]; intros b Hb Hinv Hrun.
    - cbn in Hrun. destruct (Z.ltb_spec b segment_size); [discriminate|].
      injection Hrun as <- _. split; [lia | exact Hinv].
    - cbn [tcp_receive_loop] in Hrun.
      destruct (Z.ltb_spec b segment_size) as [Hlt|Hge].
      + destruct c as [|x c]; [discriminate|].
        apply IH in Hrun; [exact Hrun | lia | lia].
      + injection Hrun as <- _. split; [lia | exact Hinv]. }
  intro Hrun. apply G in Hrun; [|lia|lia].
  destruct Hrun as [H1 H2]. split; [exact H1|]. intro. apply H2. lia.
Qed.

Lemma tcp_client_overshoot_bounded_witness :
  tcp_receive_loop 3 [[x61; x61]; [x61; x61]; [x61]] 0
  = TcpExited SegmentReceived 4 [[x61]]
  /\ 3 <= 4 /\ (0 < 3 -> 4 < 3 + 2).
Proof.
  split; [reflexivity|].
  apply (tcp_client_overshoot_bounded 3 2 [[x61; x61]; [x61; x61]; [x61]] [[x61]] 4).
  - lia.
  - repeat constructor; cbn; lia.
  - reflexivity.
Defined.

Lemma tcp_decimal_request_served (ucd : unicode_db) (n : Z) :
  0 < n ->
  (length (str_of_int n ++ [x0a]) <= 1024)%nat ->
  exists chunks,
    run (handle_tcp_connection ucd (str_of_int n ++ [x0a]))
    = (Ok true, map Sendall chunks ++ [Close])
    /\ Z.of_nat (length (concat chunks)) = n
    /\ forallb nonempty chunks = true.
Proof.
  intros Hn Hfit. unfold str_of_int in *.
  destruct (Z.ltb_spec n 0) as [|_]; [lia|].
  destruct (decimal_digits_spec n ltac:(lia)) as (Hne & Hd & Hv).
  pose proof (handle_tcp_ascii_request ucd [] (decimal_digits n) [x0a]
                Hfit eq_refl eq_refl
                (forallb_weaken _ _ _ digit_byte_ascii Hd)
                (digits_stripped _ Hd)) as Hrun.
  cbn [app] in Hrun. rewrite Hrun.
  unfold positive_decimal. rewrite Hd, Hv.
  destruct (decimal_digits n) as [|d ds]; [congruence|].
  destruct (Z.ltb_spec 0 n); [|lia]. cbn [andb].
  destruct (send_loop_trace n 0 []) as (chunks & Hloop & Hsum & Hall).
  exists chunks. rewrite Hloop. cbn [snd app]. split; [reflexivity|].
  split; [lia|].
  apply forallb_forall. intros c Hc. rewrite Forall_forall in Hall.
  specialize (Hall c Hc). destruct c; [cbn in Hall; lia | reflexivity].
Qed.

Lemma reads_of_server_trace (chunks : list (list byte)) :
  reads_of (map Sendall chunks ++ [Close]) = chunks ++ [[]].
Proof.
  unfold reads_of. rewrite map_app, map_map. cbn [map].
  rewrite map_id. reflexivity.
Qed.

(** A TCP transfer from end to end, for at least one byte per connection
    and a request line that fits the server's read: the client writes the
    line and nothing else, the server answers it with True, and the client
    reading what the server wrote ends with exactly the bytes it asked
    for, before it sees the close. *)
Theorem tcp_round_trip (ucd : unicode_db) (file_size tcp_connections : Z) :
  0 < tcp_connections <= file_size ->
  (length (str_of_int (file_size / tcp_connections) ++ [x0a]) <= 1024)%nat ->
  exists server_trace,
    run (handle_tcp_connection ucd
           (str_of_int (file_size / tcp_connections) ++ [x0a]))
    = (Ok true, server_trace)
    /\ run (initiate_tcp_test file_size tcp_connections (reads_of server_trace))
       = (Ok (Some (TcpExited SegmentReceived (file_size / tcp_connections) [[]])),
          [Sendall (str_of_int (file_size / tcp_connections) ++ [x0a]); Close]).
Proof.
  intros Hc Hfit.
  set (seg := file_size / tcp_connections) in *.
  assert (Hseg : 0 < seg) by (subst seg; apply Z.div_str_pos; lia).
  destruct (tcp_decimal_request_served ucd seg Hseg Hfit) as (chunks & Hrun & Hsum & Hne).
  eexists. split; [exact Hrun|].
  assert (Hfmt : format_int seg = Ok (str_of_int seg)).
  { unfold format_int, int_max_str_digits. rewrite Z.abs_eq by lia.
    unfold str_of_int in Hfit. destruct (Z.ltb_spec seg 0); [lia|].
    rewrite length_app in Hfit. cbn [length] in Hfit.
    destruct (Nat.ltb_spec 4300 (length (decimal_digits seg))); [lia | reflexivity]. }
  unfold run, initiate_tcp_test, try_finally, try_except, io_bind, lift, floordiv,
    sendall, close, write, io_ret.
  destruct (Z.eqb_spec tcp_connections 0); [lia|].
  fold seg. rewrite Hfmt. cbn [app].
  rewrite reads_of_server_trace.
  rewrite tcp_receive_loop_chunks by (first [exact Hne | lia]).
  rewrite Z.add_0_l, Hsum. cbn [tcp_receive_loop]. rewrite Z.ltb_irrefl.
  reflexivity.
Qed.

Lemma tcp_round_trip_witness :
  exists server_trace,
    run (handle_tcp_connection arabic_indic_digits (str_of_int (5000 / 2) ++ [x0a]))
    = (Ok true, server_trace)
    /\ run (initiate_tcp_test 5000 2 (reads_of server_trace))
       = (Ok (Some (TcpExited SegmentReceived (5000 / 2) [[]])),
          [Sendall (str_of_int (5000 / 2) ++ [x0a]); Close]).
Proof.
  apply (tcp_round_trip arabic_indic_digits 5000 2).
  - lia.
  - vm_compute. lia.
Defined.

(** With more TCP connections than bytes every connection asks for 0
    bytes: the client writes the line "0", which the server turns down
    without sending, and the client's loop ends at once, with no read and
    0 bytes received. *)
Theorem tcp_zero_segment_round_trip
    (ucd : unicode_db) (file_size tcp_connections : Z) (reads : list (list byte)) :
  0 <= file_size < tcp_connections ->
  run (initiate_tcp_test file_size tcp_connections reads)
  = (Ok (Some (TcpExited SegmentReceived 0 reads)), [Sendall [x30; x0a]; Close])
  /\ run (handle_tcp_connection ucd [x30; x0a]) = (Ok false, [Close]).
Proof.
  intro Hf. split; [|reflexivity].
  assert (Hseg : file_size / tcp_connections = 0) by (apply Z.div_small; lia).
  unfold run, initiate_tcp_test, try_finally, try_except, io_bind, lift, floordiv,
    sendall, close, write, io_ret.
  destruct (Z.eqb_spec tcp_connections 0); [lia|].
  rewrite Hseg. destruct reads; reflexivity.
Qed.

Lemma tcp_zero_segment_round_trip_witness :
  run (initiate_tcp_test 1 2 [[x61]])
  = (Ok (Some (TcpExited SegmentReceived 0 [[x61]])), [Sendall [x30; x0a]; Close])
  /\ run (handle_tcp_connection arabic_indic_digits [x30; x0a]) = (Ok false, [Close]).
Proof.
  apply (tcp_zero_segment_round_trip arabic_indic_digits 1 2 [[x61]]). lia.
Defined.

(** ** Further properties: discovery *)

Lemma listen_first_offer
    (pre post : list udp_event) (data : datagram) (sender : address) :
  forallb passed_over pre = true ->
  is_offer data = true ->
  listen_for_offers (pre ++ Datagram data sender :: post)
  = Returned (fst sender) (be_value (slice 7 2 data)) (be_value (slice 5 2 data)) post.
Proof.
  intros Hpre Hdata.
  rewrite listen_passes_over by exact Hpre. cbn [listen_for_offers].
  pose proof (unpack_offer_spec data) as S.
  destruct (unpack_IBHH data) as [[[[m t] u] p]|e].
  - destruct S as (S & -> & ->). rewrite S, Hdata. reflexivity.
  - congruence.
Qed.

Lemma offer_message_ok (SERVER_UDP_PORT SERVER_TCP_PORT : Z) :
  0 <= SERVER_UDP_PORT < 65536 -> 0 <= SERVER_TCP_PORT < 65536 ->
  let offer := cookie_bytes ++ [x02]
               ++ be_bytes 2 SERVER_UDP_PORT ++ be_bytes 2 SERVER_TCP_PORT in
  offer_message SERVER_UDP_PORT SERVER_TCP_PORT = Ok offer
  /\ is_offer offer = true
  /\ be_value (slice 5 2 offer) = SERVER_UDP_PORT
  /\ be_value (slice 7 2 offer) = SERVER_TCP_PORT.
Proof.
  intros Hu Ht offer.
  pose proof (be_value_bytes 2 SERVER_UDP_PORT) as Vu.
  pose proof (be_value_bytes 2 SERVER_TCP_PORT) as Vt.
  rewrite Z.mod_small in Vu by (cbn; lia).
  rewrite Z.mod_small in Vt by (cbn; lia).
  pose proof (be_bytes_length 2 SERVER_UDP_PORT) as Lu.
  pose proof (be_bytes_length 2 SERVER_TCP_PORT) as Lt.
  split; [|subst offer;
           destruct (be_bytes 2 SERVER_UDP_PORT) as [|u0 [|u1 [|]]]; try discriminate Lu;
           destruct (be_bytes 2 SERVER_TCP_PORT) as [|t0 [|t1 [|]]]; try discriminate Lt;
           repeat split; assumption].
  unfold offer_message, pack_IBHH.
  rewrite (pack_field_in_range 2 SERVER_UDP_PORT) by (cbn; lia).
  rewrite (pack_field_in_range 2 SERVER_TCP_PORT) by (cbn; lia).
  reflexivity.
Qed.

(** With both ports in 0..65535 the broadcaster raises nothing and every
    datagram it sends is the same 9-byte Offer, addressed to the broadcast
    address on the UDP port; a listener that hears it, after whatever it
    passes over, returns the sender's IP with the server's TCP and UDP
    ports. *)
Theorem broadcast_offer_is_heard
    (SERVER_UDP_PORT SERVER_TCP_PORT : Z) (rounds : nat)
    (pre post : list udp_event) (sender : address) :
  0 <= SERVER_UDP_PORT < 65536 -> 0 <= SERVER_TCP_PORT < 65536 ->
  forallb passed_over pre = true ->
  exists offer,
    run (udp_offer_sender SERVER_UDP_PORT SERVER_TCP_PORT rounds)
    = (Ok tt, repeat (offer, broadcast_address SERVER_UDP_PORT) rounds)
    /\ length offer = 9%nat
    /\ listen_for_offers (pre ++ Datagram offer sender :: post)
       = Returned (fst sender) SERVER_TCP_PORT SERVER_UDP_PORT post.
Proof.
  intros Hu Ht Hpre.
  destruct (offer_message_ok SERVER_UDP_PORT SERVER_TCP_PORT Hu Ht)
    as (Hmsg & Hoffer & Vu & Vt).
  cbv zeta in *.
  set (offer := cookie_bytes ++ [x02]
                ++ be_bytes 2 SERVER_UDP_PORT ++ be_bytes 2 SERVER_TCP_PORT) in *.
  exists offer. split; [|split].
  - unfold run, udp_offer_sender, try_except, io_bind, lift. rewrite Hmsg.
    rewrite (for_each_writes
               (fun _ : unit => (offer, broadcast_address SERVER_UDP_PORT)))
      by reflexivity.
    rewrite map_repeat. reflexivity.
  - unfold is_offer in Hoffer. apply andb_true_iff in Hoffer as [Hlen _].
    apply Nat.eqb_eq in Hlen. exact Hlen.
  - rewrite listen_first_offer by assumption. rewrite Vu, Vt. reflexivity.
Qed.

Lemma broadcast_offer_is_heard_witness :
  exists offer,
    run (udp_offer_sender 15000 16000 3)
    = (Ok tt, repeat (offer, broadcast_address 15000) 3)
    /\ length offer = 9%nat
    /\ listen_for_offers
         ([SocketTimeout; Datagram [x01] ("10.0.0.9"%string, 15000)]
          ++ Datagram offer ("10.0.0.7"%string, 15000) :: [SocketTimeout])
       = Returned "10.0.0.7"%string 16000 15000 [SocketTimeout].
Proof.
  apply (broadcast_offer_is_heard 15000 16000 3
           [SocketTimeout; Datagram [x01] ("10.0.0.9"%string, 15000)]
           [SocketTimeout] ("10.0.0.7"%string, 15000)).
  - lia.
  - lia.
  - reflexivity.
Defined.

(** With a port outside 0..65535 packing the Offer fails; the broadcaster
    catches the error and never sends anything. *)
Theorem broadcast_needs_16_bit_ports
    (SERVER_UDP_PORT SERVER_TCP_PORT : Z) (rounds : nat) :
  ~ (0 <= SERVER_UDP_PORT < 65536 /\ 0 <= SERVER_TCP_PORT < 65536) ->
  run (udp_offer_sender SERVER_UDP_PORT SERVER_TCP_PORT rounds) = (Ok tt, []).
Proof.
  intro Hbad.
  unfold run, udp_offer_sender, try_except, io_bind, lift, offer_message, pack_IBHH.
  change (pack_field 4 MAGIC_COOKIE) with (Ok cookie_bytes).
  change (pack_field 1 OFFER_TYPE) with (Ok [x02]).
  cbn [bind]. unfold pack_field.
  change (256 ^ Z.of_nat 2) with 65536.
  destruct (Z.leb_spec 0 SERVER_UDP_PORT); destruct (Z.ltb_spec SERVER_UDP_PORT 65536);
    cbn [andb bind]; try reflexivity.
  destruct (Z.leb_spec 0 SERVER_TCP_PORT); destruct (Z.ltb_spec SERVER_TCP_PORT 65536);
    cbn [andb bind]; try reflexivity.
  exfalso. apply Hbad. lia.
Qed.

Lemma broadcast_needs_16_bit_ports_witness :
  run (udp_offer_sender 70000 16000 5) = (Ok tt, [])
  /\ run (udp_offer_sender 15000 (-1) 5) = (Ok tt, []).
Proof.
  split.
  - apply (broadcast_needs_16_bit_ports 70000 16000 5). lia.
  - apply (broadcast_needs_16_bit_ports 15000 (-1) 5). lia.
Defined.

(** ** Further properties: the prompts and [main] *)

Lemma prompt_ascii (ucd : unicode_db) (ws1 body ws2 : list byte)
    (rest : list (list Z)) :
  forallb space_byte ws1 = true -> forallb space_byte ws2 = true ->
  forallb is_ascii body = true -> stripped body = true ->
  prompt ucd (text_of (ws1 ++ body ++ ws2) :: rest)
  = (if positive_decimal body && (length body <=? 4300)%nat
     then Some (ascii_decimal body) else None, rest).
Proof.
  intros H1 H2 Ha Hs. unfold prompt, text_of. cbv zeta.
  rewrite (strip_request ucd) by assumption.
  rewrite isdigit_ascii by exact Ha.
  destruct body as [|b r]; [reflexivity|].
  unfold positive_decimal.
  destruct (forallb digit_byte (b :: r)) eqn:Hd; cbn [negb andb]; [|reflexivity].
  unfold int_of_input, int_max_str_digits. rewrite length_map.
  destruct (Nat.ltb_spec 4300 (length (b :: r)));
    destruct (Nat.leb_spec (length (b :: r)) 4300); try lia.
  - rewrite andb_false_r. reflexivity.
  - rewrite andb_true_r.
    unfold int. rewrite int_from_digits by exact Hd. fold (ascii_decimal (b :: r)).
    destruct (Z.leb_spec (ascii_decimal (b :: r)) 0);
      destruct (Z.ltb_spec 0 (ascii_decimal (b :: r))); try lia; reflexivity.
Qed.

Lemma prompt_number (ucd : unicode_db) (ws1 ws2 : list byte) (n : Z)
    (rest : list (list Z)) :
  forallb space_byte ws1 = true -> forallb space_byte ws2 = true ->
  0 < n -> (length (str_of_int n) <= 4300)%nat ->
  prompt ucd (text_of (ws1 ++ str_of_int n ++ ws2) :: rest) = (Some n, rest).
Proof.
  intros H1 H2 Hn Hlen. unfold str_of_int in *.
  destruct (Z.ltb_spec n 0) as [|_]; [lia|].
  destruct (decimal_digits_spec n ltac:(lia)) as (Hne & Hd & Hv).
  rewrite prompt_ascii;
    [| exact H1 | exact H2
     | exact (forallb_weaken _ _ _ digit_byte_ascii Hd)
     | exact (digits_stripped _ Hd)].
  unfold positive_decimal. rewrite Hd, Hv.
  destruct (decimal_digits n); [congruence|].
  destruct (Z.ltb_spec 0 n); [|lia].
  destruct (Nat.leb_spec (length (b :: l)) 4300); [reflexivity | lia].
Qed.

Lemma prompt_some (ucd : unicode_db) (stdin rest : list (list Z)) (n : Z) :
  prompt ucd stdin = (Some n, rest) ->
  0 < n /\ exists line, stdin = line :: rest.
Proof.
  unfold prompt. destruct stdin as [|line stdin]; [discriminate|]. cbv zeta.
  destruct (negb (isdigit ucd (strip ucd line))); [discriminate|].
  destruct (int_of_input ucd (strip ucd line)) as [v|e]; [|discriminate].
  destruct (Z.leb_spec v 0); [discriminate|].
  intro E. injection E as <- <-. split; [lia|]. exists line. reflexivity.
Qed.

(** Whatever is typed and whatever the character database holds, a triple
    returned by [get_user_input] holds three positive integers read from
    exactly three lines; so neither floor division of the transfer clients
    can raise, and each is the quotient truncated toward zero. *)
Theorem get_user_input_returns_positive
    (ucd : unicode_db) (stdin rest : list (list Z))
    (file_size tcp_connections udp_connections : Z) :
  get_user_input ucd stdin
  = (Some (file_size, tcp_connections, udp_connections), rest) ->
  0 < file_size /\ 0 < tcp_connections /\ 0 < udp_connections
  /\ (exists l1 l2 l3, stdin = l1 :: l2 :: l3 :: rest)
  /\ floordiv file_size tcp_connections = Ok (Z.quot file_size tcp_connections)
  /\ floordiv file_size udp_connections = Ok (Z.quot file_size udp_connections).
Proof.
  unfold get_user_input.
  destruct (prompt ucd stdin) as [[f|] r1] eqn:E1; [|discriminate].
  destruct (prompt ucd r1) as [[t|] r2] eqn:E2; [|discriminate].
  destruct (prompt ucd r2) as [[u|] r3] eqn:E3; [|discriminate].
  intro H. injection H as <- <- <- <-.
  apply prompt_some in E1 as (Hf & l1 & ->).
  apply prompt_some in E2 as (Ht & l2 & ->).
  apply prompt_some in E3 as (Hu & l3 & ->).
  repeat split; try assumption.
  - exists l1, l2, l3. reflexivity.
  - unfold floordiv. destruct (Z.eqb_spec t 0); [lia|].
    rewrite Z.quot_div_nonneg by lia. reflexivity.
  - unfold floordiv. destruct (Z.eqb_spec u 0); [lia|].
    rewrite Z.quot_div_nonneg by lia. reflexivity.
Qed.

Lemma get_user_input_returns_positive_witness :
  let stdin := [text_of [x20; x37; x20]; text_of [x32]; text_of [x33]; text_of [x39]] in
  get_user_input arabic_indic_digits stdin = (Some (7, 2, 3), [text_of [x39]])
  /\ 0 < 7 /\ 0 < 2 /\ 0 < 3
  /\ (exists l1 l2 l3, stdin = l1 :: l2 :: l3 :: [text_of [x39]])
  /\ floordiv 7 2 = Ok (Z.quot 7 2)
  /\ floordiv 7 3 = Ok (Z.quot 7 3).
Proof.
  intro stdin. split; [reflexivity|].
  apply (get_user_input_returns_positive arabic_indic_digits stdin [text_of [x39]] 7 2 3).
  reflexivity.
Defined.

(** Three positive numbers typed in decimal, of at most 4300 digits each
    and each with any ASCII whitespace around it, are returned as typed,
    and no further line is read. *)
Theorem get_user_input_accepts_decimals
    (ucd : unicode_db) (ws1 ws2 : list byte) (rest : list (list Z))
    (file_size tcp_connections udp_connections : Z) :
  forallb space_byte ws1 = true -> forallb space_byte ws2 = true ->
  forallb (fun n => (0 <? n) && (length (str_of_int n) <=? 4300)%nat)
          [file_size; tcp_connections; udp_connections] = true ->
  get_user_input ucd
    (map (fun n => text_of (ws1 ++ str_of_int n ++ ws2))
         [file_size; tcp_connections; udp_connections] ++ rest)
  = (Some (file_size, tcp_connections, udp_connections), rest).
Proof.
  intros H1 H2 Hok. cbn [forallb] in Hok.
  apply andb_true_iff in Hok as [Hf Hok]. apply andb_true_iff in Hok as [Ht Hok].
  apply andb_true_iff in Hok as [Hu _].
  apply andb_true_iff in Hf as [Hf Hfl]. apply andb_true_iff in Ht as [Ht Htl].
  apply andb_true_iff in Hu as [Hu Hul].
  apply Z.ltb_lt in Hf, Ht, Hu. apply Nat.leb_le in Hfl, Htl, Hul.
  cbn [map app]. unfold get_user_input.
  rewrite !prompt_number by assumption. reflexivity.
Qed.

Lemma get_user_input_accepts_decimals_witness :
  get_user_input arabic_indic_digits
    (map (fun n => text_of ([x20; x09] ++ str_of_int n ++ [x20]))
         [1000000; 3; 2] ++ [text_of [x78]])
  = (Some (1000000, 3, 2), [text_of [x78]]).
Proof.
  apply (get_user_input_accepts_decimals arabic_indic_digits [x20; x09] [x20]
           [text_of [x78]] 1000000 3 2); reflexivity.
Defined.

(** After at most two accepted numbers, an ASCII line whose stripped
    content is empty, not a run of digits, or worth 0 makes
    [get_user_input] return None at once: the lines after it are not
    read. *)
Theorem get_user_input_stops_at_bad_line
    (ucd : unicode_db) (accepted : list Z) (ws1 body ws2 : list byte)
    (rest : list (list Z)) :
  (length accepted <= 2)%nat ->
  forallb (fun n => (0 <? n) && (length (str_of_int n) <=? 4300)%nat) accepted = true ->
  forallb space_byte ws1 = true -> forallb space_byte ws2 = true ->
  forallb is_ascii body = true -> stripped body = true ->
  positive_decimal body = false ->
  get_user_input ucd
    (map (fun n => text_of (str_of_int n)) accepted
     ++ text_of (ws1 ++ body ++ ws2) :: rest)
  = (None, rest).
Proof.
  intros Hlen Hpos H1 H2 Ha Hs Hbad.
  assert (P : forall n r, (0 <? n) && (length (str_of_int n) <=? 4300)%nat = true ->
              prompt ucd (text_of (str_of_int n) :: r) = (Some n, r)).
  { intros n r Hn. apply andb_true_iff in Hn as [Hn Hl].
    apply Z.ltb_lt in Hn. apply Nat.leb_le in Hl.
    pose proof (prompt_number ucd [] [] n r eq_refl eq_refl Hn Hl) as E.
    cbn [app] in E. rewrite app_nil_r in E. exact E. }
  assert (B : prompt ucd (text_of (ws1 ++ body ++ ws2) :: rest) = (None, rest)).
  { rewrite prompt_ascii by assumption. rewrite Hbad. reflexivity. }
  unfold get_user_input.
  destruct accepted as [|a [|b [|c accepted]]]; cbn [map app length] in *.
  - rewrite B. reflexivity.
  - cbn [forallb] in Hpos. apply andb_true_iff in Hpos as [Ha' _].
    rewrite P by exact Ha'. rewrite B. reflexivity.
  - cbn [forallb] in Hpos. apply andb_true_iff in Hpos as [Ha' Hpos].
    apply andb_true_iff in Hpos as [Hb' _].
    rewrite !P by assumption. rewrite B. reflexivity.
  - lia.
Qed.

Lemma get_user_input_stops_at_bad_line_witness :
  get_user_input arabic_indic_digits
    (map (fun n => text_of (str_of_int n)) [2500]
     ++ text_of ([] ++ [x2d; x31] ++ [x20]) :: [text_of [x32]])
  = (None, [text_of [x32]]).
Proof.
  apply (get_user_input_stops_at_bad_line arabic_indic_digits [2500]
           [] [x2d; x31] [x20] [text_of [x32]]);
    first [reflexivity | cbn; lia].
Defined.

(** An Offer that advertises port 0 for TCP or for UDP is accepted by the
    listener but then treated by [main] as no offer: it returns without
    prompting and without starting a transfer, whatever is typed. *)
Theorem client_main_refuses_port_zero
    (ucd : unicode_db) (pre post : list udp_event) (data : datagram)
    (sender : address) (stdin : list (list Z)) :
  forallb passed_over pre = true ->
  is_offer data = true ->
  be_value (slice 7 2 data) = 0 \/ be_value (slice 5 2 data) = 0 ->
  client_main ucd (pre ++ Datagram data sender :: post) stdin = NoValidOffer.
Proof.
  intros Hpre Hdata Hzero. unfold client_main.
  rewrite listen_first_offer by assumption.
  destruct Hzero as [-> | ->]; cbn [Z.eqb orb];
    rewrite ?orb_true_r; reflexivity.
Qed.

Lemma client_main_refuses_port_zero_witness :
  client_main arabic_indic_digits
    ([SocketTimeout]
     ++ Datagram [xab; xcd; xdc; xba; x02; x3a; x98; x00; x00]
                 ("10.0.0.7"%string, 15000) :: [])
    [text_of [x37]; text_of [x32]; text_of [x33]]
  = NoValidOffer.
Proof.
  apply (client_main_refuses_port_zero arabic_indic_digits [SocketTimeout] []
           [xab; xcd; xdc; xba; x02; x3a; x98; x00; x00]
           ("10.0.0.7"%string, 15000)).
  - reflexivity.
  - reflexivity.
  - left. reflexivity.
Defined.

Lemma nth_error_range_map {A : Type} (f : Z -> A) (n i : Z) :
  0 <= i < n -> nth_error (map f (range n)) (Z.to_nat i) = Some (f i).
Proof.
  intro H. rewrite nth_error_map, range_nth by exact H. reflexivity.
Qed.

(** The orchestrator starts the TCP workers first, then the UDP workers,
    one per connection; within each kind the transfer ids run from 1 up
    and every worker gets the whole file size and the connection count of
    its kind. *)
Theorem initiate_speed_test_workers
    (server_ip : string)
    (tcp_port udp_port file_size tcp_connections udp_connections : Z) :
  0 <= tcp_connections -> 0 <= udp_connections ->
  let workers := initiate_speed_test server_ip tcp_port udp_port file_size
                   tcp_connections udp_connections in
  Z.of_nat (length workers) = tcp_connections + udp_connections
  /\ (forall i, 0 <= i < tcp_connections ->
        nth_error workers (Z.to_nat i)
        = Some (TcpWorker server_ip tcp_port file_size tcp_connections (i + 1)))
  /\ (forall j, 0 <= j < udp_connections ->
        nth_error workers (Z.to_nat (tcp_connections + j))
        = Some (UdpWorker server_ip udp_port file_size udp_connections (j + 1))).
Proof.
  intros Ht Hu workers. subst workers. unfold initiate_speed_test.
  split; [|split].
  - rewrite length_app, !length_map, !range_length. lia.
  - intros i Hi. rewrite nth_error_app1 by (rewrite length_map, range_length; lia).
    apply (nth_error_range_map
             (fun i => TcpWorker server_ip tcp_port file_size tcp_connections (i + 1))).
    exact Hi.
  - intros j Hj. rewrite nth_error_app2 by (rewrite length_map, range_length; lia).
    rewrite length_map, range_length.
    replace (Z.to_nat (tcp_connections + j) - Z.to_nat tcp_connections)%nat
      with (Z.to_nat j) by lia.
    apply (nth_error_range_map
             (fun j => UdpWorker server_ip udp_port file_size udp_connections (j + 1))).
    exact Hj.
Qed.

Lemma initiate_speed_test_workers_witness :
  let workers := initiate_speed_test "10.0.0.7"%string 16000 15000 2500 3 2 in
  Z.of_nat (length workers) = 3 + 2
  /\ (forall i, 0 <= i < 3 ->
        nth_error workers (Z.to_nat i)
        = Some (TcpWorker "10.0.0.7"%string 16000 2500 3 (i + 1)))
  /\ (forall j, 0 <= j < 2 ->
        nth_error workers (Z.to_nat (3 + j))
        = Some (UdpWorker "10.0.0.7"%string 15000 2500 2 (j + 1))).
Proof.
  apply (initiate_speed_test_workers "10.0.0.7"%string 16000 15000 2500 3 2); lia.
Defined.

(** Discovery to start: a server with non-zero ports in 1..65535, heard
    from a non-empty IP, and three accepted inputs make [main] start
    exactly the workers of [initiate_speed_test] against that IP and
    those ports, as many as the two connection counts together. *)
Theorem client_main_starts_speed_test
    (ucd : unicode_db) (SERVER_UDP_PORT SERVER_TCP_PORT : Z)
    (pre post : list udp_event) (sender : address)
    (stdin rest : list (list Z))
    (file_size tcp_connections udp_connections : Z) :
  0 < SERVER_UDP_PORT < 65536 -> 0 < SERVER_TCP_PORT < 65536 ->
  fst sender <> EmptyString ->
  forallb passed_over pre = true ->
  get_user_input ucd stdin
  = (Some (file_size, tcp_connections, udp_connections), rest) ->
  exists offer,
    offer_message SERVER_UDP_PORT SERVER_TCP_PORT = Ok offer
    /\ client_main ucd (pre ++ Datagram offer sender :: post) stdin
       = Started (initiate_speed_test (fst sender) SERVER_TCP_PORT SERVER_UDP_PORT
                    file_size tcp_connections udp_connections)
    /\ Z.of_nat (length (initiate_speed_test (fst sender) SERVER_TCP_PORT
                           SERVER_UDP_PORT file_size tcp_connections
                           udp_connections))
       = tcp_connections + udp_connections.
Proof.
  intros Hu Ht Hip Hpre Hin.
  destruct (offer_message_ok SERVER_UDP_PORT SERVER_TCP_PORT
              ltac:(lia) ltac:(lia)) as (Hmsg & Hoffer & Vu & Vt).
  cbv zeta in *.
  set (offer := cookie_bytes ++ [x02]
                ++ be_bytes 2 SERVER_UDP_PORT ++ be_bytes 2 SERVER_TCP_PORT) in *.
  exists offer. split; [exact Hmsg|]. split.
  - unfold client_main. rewrite listen_first_offer by assumption.
    rewrite Vu, Vt.
    apply String.eqb_neq in Hip. rewrite Hip.
    destruct (Z.eqb_spec SERVER_TCP_PORT 0); [lia|].
    destruct (Z.eqb_spec SERVER_UDP_PORT 0); [lia|].
    cbn [orb]. rewrite Hin. reflexivity.
  - unfold get_user_input in Hin.
    destruct (prompt ucd stdin) as [[f|] r1] eqn:E1; [|discriminate].
    destruct (prompt ucd r1) as [[t|] r2] eqn:E2; [|discriminate].
    destruct (prompt ucd r2) as [[u|] r3] eqn:E3; [|discriminate].
    injection Hin as <- <- <- <-.
    apply prompt_some in E2 as [Ht' _]. apply prompt_some in E3 as [Hu' _].
    unfold initiate_speed_test.
    rewrite length_app, !length_map, !range_length. lia.
Qed.

Lemma client_main_starts_speed_test_witness :
  exists offer,
    offer_message 15000 16000 = Ok offer
    /\ client_main arabic_indic_digits
         ([SocketTimeout] ++ Datagram offer ("10.0.0.7"%string, 15000) :: [])
         [text_of [x37]; text_of [x32]; text_of [x33]]
       = Started (initiate_speed_test "10.0.0.7"%string 16000 15000 7 2 3)
    /\ Z.of_nat (length (initiate_speed_test "10.0.0.7"%string 16000 15000 7 2 3))
       = 2 + 3.
Proof.
  apply (client_main_starts_speed_test arabic_indic_digits 15000 16000
           [SocketTimeout] [] ("10.0.0.7"%string, 15000)
           [text_of [x37]; text_of [x32]; text_of [x33]] []).
  - lia.
  - lia.
  - discriminate.
  - reflexivity.
  - reflexivity.
Defined.

(** ** Further properties: what the TCP server writes *)

Lemma send_loop_done (file_size_bytes total_bytes_sent : Z) (w : list tcp_action) :
  file_size_bytes <= total_bytes_sent ->
  send_loop file_size_bytes total_bytes_sent w = (Ok tt, w).
Proof.
  intro H.
  destruct (send_loop_trace file_size_bytes total_bytes_sent w)
    as (chunks & Hrun & Hsum & Hall).
  rewrite Hrun. destruct chunks as [|c chunks].
  - cbn. rewrite app_nil_r. reflexivity.
  - exfalso. inversion Hall as [|? ? Hc _]; subst.
    cbn [concat] in Hsum. rewrite length_app, Nat2Z.inj_add in Hsum. lia.
Qed.

Lemma send_loop_layout (file_size_bytes : Z) (n : nat) (j : Z) (w : list tcp_action) :
  0 <= j ->
  j + Z.of_nat n = chunks_of file_size_bytes ->
  send_loop file_size_bytes (1024 * j) w
  = (Ok tt,
     w ++ map (fun k => Sendall (filler x61 (Z.min 1024 (file_size_bytes - 1024 * k))))
              (map (fun i => j + Z.of_nat i) (seq 0 n))).
Proof.
  unfold filler. revert j w. induction n as [|n IH]; intros j w Hj Hn.
  - cbn [seq map]. rewrite app_nil_r. apply send_loop_done.
    unfold chunks_of, chunk_size in Hn.
    pose proof (Z.mul_succ_div_gt (file_size_bytes + 1024 - 1) 1024 ltac:(lia)). lia.
  - assert (Hlt : 1024 * j < file_size_bytes).
    { unfold chunks_of, chunk_size in Hn.
      pose proof (Z.mul_div_le (file_size_bytes + 1024 - 1) 1024 ltac:(lia)). lia. }
    rewrite send_loop_equation_1. unfold send_loop_clause_1.
    destruct (Z_lt_dec (1024 * j) file_size_bytes) as [l|]; [|lia].
    unfold send_loop_unfold_clause_1, io_bind, sendall, write, chunk_size.
    unfold filler. rewrite repeat_length.
    cbn [seq map]. rewrite Z.add_0_r, <- seq_shift.
    destruct (Z_lt_dec (file_size_bytes - 1024 * j) 1024) as [Hlast|Hfull].
    + (* the last, short chunk *)
      rewrite Z.min_r by lia. rewrite Z2Nat.id by lia.
      replace (1024 * j + (file_size_bytes - 1024 * j)) with file_size_bytes by lia.
      rewrite send_loop_done by lia.
      assert (n = 0%nat).
      { unfold chunks_of, chunk_size in Hn.
        assert ((file_size_bytes + 1024 - 1) / 1024 < j + 2)
          by (apply Z.div_lt_upper_bound; lia).
        lia. }
      subst n. reflexivity.
    + rewrite Z.min_l by lia. rewrite Z2Nat.id by lia.
      replace (1024 * j + 1024) with (1024 * (j + 1)) by lia.
      rewrite IH by lia.
      rewrite <- app_assoc. cbn [app]. rewrite !map_map.
      do 3 f_equal.
      apply map_ext. intro i. do 4 f_equal. lia.
Qed.

(** Every ASCII request that is whitespace, a run of digits worth a
    positive number n (leading zeros allowed), whitespace, and that fits
    the handler's read, is served: the handler writes ceil(n / 1024)
    chunks of the byte 'a', all of 1024 bytes but the last, which has what
    remains of n, then closes and returns True. *)
Theorem tcp_server_chunk_layout
    (ucd : unicode_db) (ws1 body ws2 : list byte) :
  (length (ws1 ++ body ++ ws2) <= 1024)%nat ->
  forallb space_byte ws1 = true -> forallb space_byte ws2 = true ->
  positive_decimal body = true ->
  run (handle_tcp_connection ucd (ws1 ++ body ++ ws2))
  = (Ok true,
     map (fun k => Sendall (repeat x61
                     (Z.to_nat (Z.min 1024 (ascii_decimal body - 1024 * k)))))
         (range (ceil_div (ascii_decimal body) 1024))
     ++ [Close]).
Proof.
  intros Hfit H1 H2 Hpos.
  assert (Hd : forallb digit_byte body = true).
  { unfold positive_decimal in Hpos. destruct body; [discriminate|].
    apply andb_true_iff in Hpos as [Hd _]. exact Hd. }
  rewrite handle_tcp_ascii_request;
    [| exact Hfit | exact H1 | exact H2
     | exact (forallb_weaken _ _ _ digit_byte_ascii Hd)
     | exact (digits_stripped _ Hd)].
  rewrite Hpos. f_equal. f_equal.
  set (n := ascii_decimal body) in *.
  assert (Hc : 0 <= chunks_of n).
  { unfold chunks_of, chunk_size. apply Z.div_pos; [|lia].
    unfold positive_decimal in Hpos. destruct body; [discriminate|].
    apply andb_true_iff in Hpos as [_ Hp]. apply Z.ltb_lt in Hp. fold n in Hp. lia. }
  pose proof (send_loop_layout n (Z.to_nat (chunks_of n)) 0 [] ltac:(lia) ltac:(lia)) as L.
  unfold filler in L. cbn [Z.mul] in L. rewrite L. cbn [snd app].
  rewrite <- ceil_div_formula by lia. fold chunk_size. fold (chunks_of n).
  unfold range. rewrite !map_map. apply map_ext. intro i. reflexivity.
Qed.

Lemma tcp_server_chunk_layout_witness :
  run (handle_tcp_connection arabic_indic_digits
         ([x20] ++ [x30; x32; x30; x35; x30] ++ [x0d; x0a]))
  = (Ok true,
     map (fun k => Sendall (repeat x61 (Z.to_nat (Z.min 1024 (2050 - 1024 * k)))))
         (range (ceil_div 2050 1024))
     ++ [Close]).
Proof.
  apply (tcp_server_chunk_layout arabic_indic_digits
           [x20] [x30; x32; x30; x35; x30] [x0d; x0a]).
  - cbn. lia.
  - reflexivity.
  - reflexivity.
  - reflexivity.
Defined.

(** ** The success rate at the exit of the UDP receive loop *)

Lemma loop_body_agreed (total : Z) (ev : recv_event) (st : transfer) :
  agreed total ev = true -> below_total total st ->
  let (st', c) := loop_body ev st in
  (c = Continue \/ c = Break IdleTimeout -> below_total total st')
  /\ (forall e, c <> Propagate e).
Proof.
  intros Hev (Hr & Ht & Hlt & H0).
  destruct ev as [now data|now].
  - cbn [agreed] in Hev. apply andb_true_iff in Hev as [Hp Hs].
    apply Z.eqb_eq in Hs.
    rewrite loop_body_payload by exact Hp. rewrite Hs.
    destruct (Z.eqb_spec (received_segments st + 1) total) as [E|N].
    + split; [intros [C|C]; discriminate C | intros e C; discriminate C].
    + split; [|intros e C; discriminate C].
      intros _. unfold below_total. cbn [received_segments total_segment_count].
      assert (Hnn : 0 <= total).
      { rewrite <- Hs. unfold size_field. apply be_value_range. }
      split; [lia|]. split; [right; reflexivity|]. split; [|lia].
      destruct (Z.eq_dec total 0) as [Z0|NZ]; [left; exact Z0 | right].
      destruct Ht as [T0|TT]; [specialize (H0 NZ T0); lia | lia].
  - cbn [loop_body].
    destruct (now - last_received_time st >? 1000);
      (split; [intros _; unfold below_total; tauto | intros e C; discriminate C]).
Qed.

Lemma receive_loop_agreed
    (total : Z) (incoming : list recv_event) (st0 st : transfer) :
  forallb (agreed total) incoming = true ->
  below_total total st0 ->
  receive_loop incoming st0 = Exited IdleTimeout st ->
  below_total total st.
Proof.
  revert st0. induction incoming as [|ev rest IH]; intros st0 Hall Hinv Hrun.
  - discriminate.
  - cbn [forallb] in Hall. apply andb_true_iff in Hall as [Hev Hall].
    cbn [receive_loop] in Hrun.
    pose proof (loop_body_agreed total ev st0 Hev Hinv) as B.
    destruct (loop_body ev st0) as [st' c]. destruct B as [B _].
    destruct c as [|why|e].
    + apply (IH st'); [exact Hall | apply B; left; reflexivity | exact Hrun].
    + injection Hrun as -> ->. apply B. right. reflexivity.
    + discriminate.
Qed.

(** C2, as the code has it: when the receive loop has exited, the success
    rate is exactly 100 if [received_segments] equals a non-zero
    [total_segment_count], and so on every exit by completion; it is 0 if
    [total_segment_count] is 0; and after a run in which every datagram
    read was a valid Payload announcing one and the same total, it lies in
    [0, 100) whenever the exit is by the idle timeout. *)
Theorem success_rate_at_loop_exit
    (incoming : list recv_event) (start : Z) (why : loop_exit) (st : transfer) :
  receive_loop incoming (initial_transfer start) = Exited why st ->
  (received_segments st = total_segment_count st ->
   total_segment_count st <> 0 -> (success_rate st == 100)%Q)
  /\ (why = Completed -> (success_rate st == 100)%Q)
  /\ (total_segment_count st = 0 -> (success_rate st == 0)%Q)
  /\ (forall total,
        forallb (agreed total) incoming = true -> why = IdleTimeout ->
        (0 <= success_rate st)%Q /\ (success_rate st < 100)%Q).
Proof.
  intro Hrun.
  destruct (receive_loop_exit incoming (initial_transfer start) st why) as (Hr & Ht & Hc);
    [cbn; lia | cbn; lia | exact Hrun |].
  split; [|split; [|split]].
  - intros Heq Hnz. apply success_rate_full; lia.
  - intro Hw. destruct (Hc Hw). apply success_rate_full; assumption.
  - intro Hz. unfold success_rate. rewrite Hz. reflexivity.
  - intros total Hall Hw. subst why.
    assert (Hinv : below_total total st).
    { apply (receive_loop_agreed total incoming (initial_transfer start));
        [exact Hall | | exact Hrun].
      unfold below_total. cbn [initial_transfer received_segments total_segment_count].
      split; [lia|]. split; [left; reflexivity|]. split; [left; reflexivity|].
      intros _ _. reflexivity. }
    destruct Hinv as (_ & _ & [Hz|Hlt] & _).
    + unfold success_rate. rewrite Hz. cbn. split; [discriminate | reflexivity].
    + apply success_rate_partial; assumption.
Qed.

Lemma success_rate_at_loop_exit_witness :
  let payload k := [xab; xcd; xdc; xba; x04;
                    x00; x00; x00; x00; x00; x00; x00; x03;
                    x00; x00; x00; x00; x00; x00; x00; k; x64] in
  let incoming := [Received 5 (payload x00); TimedOut 600;
                   Received 900 (payload x02); TimedOut 1950] in
  let st := {| received_segments := 2; total_segment_count := 3;
               last_received_time := 900 |} in
  receive_loop incoming (initial_transfer 0) = Exited IdleTimeout st
  /\ forallb (agreed 3) incoming = true
  /\ (0 <= success_rate st)%Q /\ (success_rate st < 100)%Q.
Proof.
  intros payload incoming st.
  split; [reflexivity|]. split; [reflexivity|].
  apply (success_rate_at_loop_exit incoming 0 IdleTimeout st eq_refl) with (total := 3).
  - reflexivity.
  - reflexivity.
Defined.
